(** * FSeam: the mock registry of [FSeam/MockVerifier.hpp]

    A shallow embedding of the three classes of the header
    ([MethodCallVerifier], [MockClassVerifier], [MockVerifier]) and of their
    member functions, followed by the properties of the registry.

    The C++ objects live behind [std::shared_ptr] and [std::unique_ptr]; the
    embedding keeps them in explicit stores indexed by locations, so that
    two handles to one object are two copies of one location.  Member
    functions are computations in a state-and-exception monad over these
    stores. *)

From Stdlib Require Import ZArith Lia.
From stdpp Require Import base option list gmap strings pretty.

Local Open Scope Z_scope.

(** ** Data *)

(** A location of one of the object stores. *)
Abbreviation loc := positive.

(** A [void*] / [const void*]: an address, never dereferenced. *)
Abbreviation address := Z.

(** [nullptr]. *)
Definition nullptr : address := 0.

(** [std::any]: a value together with its type. *)
Definition any : Type := { T : Type & T }.

(** [std::function<void(void* )>].  The header builds such values in three
    ways: default construction ([empty_function]), from a callable supplied
    by the test ([callable f], where [f] names the callable), and from the
    lambda of [dupeMethod] ([composed]), whose captures are a copy of the
    new handler and a copy of the shared pointer to the ledger entry. *)
Inductive Handler : Type :=
| empty_function
| callable (f : nat)
| composed (handler : Handler) (methodCallVerifier : loc).

(** [explicit operator bool] of [std::function]. *)
Definition has_target (h : Handler) : bool :=
  match h with
  | empty_function => false
  | _ => true
  end.

(** [struct MethodCallVerifier]. *)
Record MethodCallVerifier : Type := mkMethodCallVerifier {
  _methodName : string;
  _called : Z;
  _handler : Handler;
  _calledData : list any
}.

(** The value produced by [std::make_shared<MethodCallVerifier>()]. *)
Definition MethodCallVerifier_default : MethodCallVerifier :=
  {| _methodName := ""; _called := 0; _handler := empty_function;
     _calledData := [] |}.

(** [class MockClassVerifier]: its two private members. *)
Record MockClassVerifier : Type := mkMockClassVerifier {
  _className : string;
  _verifiers : gmap string loc
}.

(** [class MockVerifier]: its two private members. *)
Record MockVerifier : Type := mkMockVerifier {
  _mockedClass : gmap address loc;
  _defaultMockedClass : gmap string loc
}.

(** The two standard streams of [<iostream>] that carry text. *)
Inductive ostream : Type := cout | cerr.

(** The state of the process, as far as the header can see it. *)
Record World : Type := mkWorld {
  (** objects owned through [std::shared_ptr<MethodCallVerifier>] *)
  methodStore : gmap loc MethodCallVerifier;
  (** objects owned through [std::shared_ptr<MockClassVerifier>] *)
  classStore : gmap loc MockClassVerifier;
  (** objects owned through [std::unique_ptr<MockVerifier>] *)
  verifierStore : gmap loc MockVerifier;
  (** [MockVerifier::inst] *)
  inst : option loc;
  (** the lines written to the standard streams, oldest first *)
  written : list (ostream * string);
  (** the calls made to the callables of the test, oldest first *)
  invoked : list (nat * address)
}.

(** The state before the first use of the header: [inst = nullptr]. *)
Definition World_initial : World :=
  {| methodStore := ∅; classStore := ∅; verifierStore := ∅; inst := None;
     written := []; invoked := [] |}.

(** ** The monad of member functions *)

(** The exceptions of the standard library that the header can meet:
    [std::map::at] on a missing key and the call of an empty
    [std::function]. *)
Inductive exception : Type := out_of_range | bad_function_call.

(** What a call does: it returns a value, it throws, it dereferences a
    pointer that owns no object (undefined behaviour), or the fuel given to
    the model ran out before the call came back.  The last three keep no
    result value. *)
Inductive outcome (A : Type) : Type :=
| Returns (a : A) (w : World)
| Throws (e : exception) (w : World)
| Undefined
| OutOfFuel (w : World).
Arguments Returns {A} a w.
Arguments Throws {A} e w.
Arguments Undefined {A}.
Arguments OutOfFuel {A} w.

Definition M (A : Type) : Type := World → outcome A.

#[global] Instance M_ret : MRet M := λ A a w, Returns a w.

#[global] Instance M_bind : MBind M := λ A B f m w,
  match m w with
  | Returns a w' => f a w'
  | Throws e w' => Throws e w'
  | Undefined => Undefined
  | OutOfFuel w' => OutOfFuel w'
  end.

Definition throw {A} (e : exception) : M A := λ w, Throws e w.
Definition undefined {A} : M A := λ _, Undefined.
Definition out_of_fuel {A} : M A := λ w, OutOfFuel w.

(** *** The stores *)

Definition set_methodStore (h : gmap loc MethodCallVerifier) (w : World) : World :=
  {| methodStore := h; classStore := classStore w;
     verifierStore := verifierStore w; inst := inst w;
     written := written w; invoked := invoked w |}.

Definition set_classStore (h : gmap loc MockClassVerifier) (w : World) : World :=
  {| methodStore := methodStore w; classStore := h;
     verifierStore := verifierStore w; inst := inst w;
     written := written w; invoked := invoked w |}.

Definition set_verifierStore (h : gmap loc MockVerifier) (w : World) : World :=
  {| methodStore := methodStore w; classStore := classStore w;
     verifierStore := h; inst := inst w;
     written := written w; invoked := invoked w |}.

Definition set_inst (i : option loc) (w : World) : World :=
  {| methodStore := methodStore w; classStore := classStore w;
     verifierStore := verifierStore w; inst := i;
     written := written w; invoked := invoked w |}.

Definition set_written (l : list (ostream * string)) (w : World) : World :=
  {| methodStore := methodStore w; classStore := classStore w;
     verifierStore := verifierStore w; inst := inst w;
     written := l; invoked := invoked w |}.

Definition set_invoked (l : list (nat * address)) (w : World) : World :=
  {| methodStore := methodStore w; classStore := classStore w;
     verifierStore := verifierStore w; inst := inst w;
     written := written w; invoked := l |}.

(** [*p] for a pointer to a [MethodCallVerifier]. *)
Definition deref_method (p : loc) : M MethodCallVerifier := λ w,
  match methodStore w !! p with
  | Some m => Returns m w
  | None => Undefined
  end.

(** [*p = m']: the members of the object behind [p] are overwritten. *)
Definition assign_method (p : loc) (m' : MethodCallVerifier) : M unit := λ w,
  match methodStore w !! p with
  | Some _ => Returns () (set_methodStore (<[p := m']> (methodStore w)) w)
  | None => Undefined
  end.

(** The end of an object whose last owner lets go of it (here: the object
    made at the entry of [dupeMethod], when the local shared pointer is
    assigned the one found in the map).  The stores keep every other shared
    object: whether its last owner is gone is something no member function
    can see. *)
Definition destroy_method (p : loc) : M unit := λ w,
  Returns () (set_methodStore (delete p (methodStore w)) w).

(** [std::make_shared<MethodCallVerifier>()]: a new object, at a location
    that owns nothing yet. *)
Definition make_shared_method (m : MethodCallVerifier) : M loc := λ w,
  let p := fresh (dom (methodStore w)) in
  Returns p (set_methodStore (<[p := m]> (methodStore w)) w).

Definition deref_class (p : loc) : M MockClassVerifier := λ w,
  match classStore w !! p with
  | Some c => Returns c w
  | None => Undefined
  end.

Definition assign_class (p : loc) (c' : MockClassVerifier) : M unit := λ w,
  match classStore w !! p with
  | Some _ => Returns () (set_classStore (<[p := c']> (classStore w)) w)
  | None => Undefined
  end.

(** [std::make_shared<MockClassVerifier>(className)]. *)
Definition make_shared_class (c : MockClassVerifier) : M loc := λ w,
  let p := fresh (dom (classStore w)) in
  Returns p (set_classStore (<[p := c]> (classStore w)) w).

Definition deref_verifier (p : loc) : M MockVerifier := λ w,
  match verifierStore w !! p with
  | Some v => Returns v w
  | None => Undefined
  end.

Definition assign_verifier (p : loc) (v' : MockVerifier) : M unit := λ w,
  match verifierStore w !! p with
  | Some _ => Returns () (set_verifierStore (<[p := v']> (verifierStore w)) w)
  | None => Undefined
  end.

(** [std::make_unique<MockVerifier>()]. *)
Definition make_unique_verifier (v : MockVerifier) : M loc := λ w,
  let p := fresh (dom (verifierStore w)) in
  Returns p (set_verifierStore (<[p := v]> (verifierStore w)) w).

(** [std::map::find(key) != end()]. *)
Definition map_find `{Countable K} {V} (m : gmap K V) (key : K) : bool :=
  bool_decide (is_Some (m !! key)).

(** [std::map::at(key)], which throws [std::out_of_range] on a missing
    key. *)
Definition map_at `{Countable K} {V} (m : gmap K V) (key : K) : M V :=
  match m !! key with
  | Some v => mret v
  | None => throw out_of_range
  end.

(** [stream << ... << std::endl], one whole line at a time. *)
Definition put_line (s : ostream) (line : string) : M unit := λ w,
  Returns () (set_written (written w ++ [(s, line)]) w).

(** The call of a callable of the test.  What the callable does is outside
    the header; the model keeps the fact that it ran and on which
    argument. *)
Definition run_callable (f : nat) (data : address) : M unit := λ w,
  Returns () (set_invoked (invoked w ++ [(f, data)]) w).

(** *** Integers *)

(** [std::size_t] has 64 bits (LP64). *)
Definition SIZE_WIDTH : Z := 64.

(** The conversion of an [int] to [std::size_t] that the comparison of a
    [std::size_t] with an [int] performs. *)
Definition to_size_t (n : Z) : Z := n mod 2 ^ SIZE_WIDTH.

(** The largest [int]. *)
Definition INT_MAX : Z := 2 ^ 31 - 1.

(** [std::vector::size()]: the number of elements (a vector never holds
    [2 ^ 64] elements or more, so the count is exact). *)
Definition vector_size {A} (v : list A) : Z := Z.of_nat (length v).

(** ** [class MockClassVerifier] *)

(** Assignments to one member of the object behind a pointer. *)
Definition with_methodName (s : string) (m : MethodCallVerifier) : MethodCallVerifier :=
  {| _methodName := s; _called := _called m; _handler := _handler m;
     _calledData := _calledData m |}.

Definition with_called (n : Z) (m : MethodCallVerifier) : MethodCallVerifier :=
  {| _methodName := _methodName m; _called := n; _handler := _handler m;
     _calledData := _calledData m |}.

Definition with_handler (h : Handler) (m : MethodCallVerifier) : MethodCallVerifier :=
  {| _methodName := _methodName m; _called := _called m; _handler := h;
     _calledData := _calledData m |}.

Definition with_calledData (d : list any) (m : MethodCallVerifier) : MethodCallVerifier :=
  {| _methodName := _methodName m; _called := _called m; _handler := _handler m;
     _calledData := d |}.

Definition with_verifiers (v : gmap string loc) (c : MockClassVerifier) : MockClassVerifier :=
  {| _className := _className c; _verifiers := v |}.

(** [p->member = ...], as the update [f] of the object behind [p]. *)
Definition update_method (p : loc) (f : MethodCallVerifier → MethodCallVerifier) : M unit :=
  m ← deref_method p; assign_method p (f m).

(** [MockClassVerifier(std::string className)]. *)
Definition MockClassVerifier_new (className : string) : MockClassVerifier :=
  {| _className := className; _verifiers := ∅ |}.

(** The call [h(data)] of a [std::function].  The body of the lambda of
    [dupeMethod] is
    [methodCallVerifier->_handler(data); handler(data);]
    and reads the member [_handler] when it runs. *)
Fixpoint call (fuel : nat) (h : Handler) (data : address) {struct fuel} : M unit :=
  match h with
  | empty_function => throw bad_function_call
  | callable f => run_callable f data
  | composed handler methodCallVerifier =>
      match fuel with
      | O => out_of_fuel
      | S fuel' =>
          m ← deref_method methodCallVerifier;
          call fuel' (_handler m) data;;
          call fuel' handler data
      end
  end.

(** [void invokeDupedMethod(std::string methodName, void *arg = nullptr)] *)
Definition invokeDupedMethod (fuel : nat) (this : loc) (methodName : string)
    (arg : address) : M unit :=
  c ← deref_class this;
  let key := _className c +:+ methodName in
  if map_find (_verifiers c) key then
    p ← map_at (_verifiers c) key;
    m ← deref_method p;
    let dupedMethod := _handler m in
    if has_target dupedMethod then call fuel dupedMethod arg else mret ()
  else mret ().

(** [void methodCall(std::string methodName, std::any &&callingInfo)] *)
Definition methodCall (this : loc) (methodName : string) (callingInfo : any) : M unit :=
  c ← deref_class this;
  let key := _className c +:+ methodName in
  methodCallVerifier ←
    (if map_find (_verifiers c) key then map_at (_verifiers c) key
     else make_shared_method MethodCallVerifier_default);
  update_method methodCallVerifier (with_methodName methodName);;
  update_method methodCallVerifier
    (λ m, with_calledData (_calledData m ++ [callingInfo]) m);;
  update_method methodCallVerifier
    (λ m, with_called (vector_size (_calledData m)) m);;
  c ← deref_class this;
  assign_class this (with_verifiers (<[key := methodCallVerifier]> (_verifiers c)) c).

(** [void dupeMethod(std::string methodName,
                     std::function<void(void* )> handler,
                     bool isComposed = false)] *)
Definition dupeMethod (this : loc) (methodName : string) (handler : Handler)
    (isComposed : bool) : M unit :=
  fresh_one ← make_shared_method MethodCallVerifier_default;
  c ← deref_class this;
  let key := _className c +:+ methodName in
  methodCallVerifier ←
    (if map_find (_verifiers c) key then
       p ← map_at (_verifiers c) key; destroy_method fresh_one;; mret p
     else mret fresh_one);
  update_method methodCallVerifier (with_methodName methodName);;
  update_method methodCallVerifier (with_calledData []);;
  update_method methodCallVerifier
    (λ m, with_called (vector_size (_calledData m)) m);;
  m ← deref_method methodCallVerifier;
  (if isComposed && has_target (_handler m) then
     update_method methodCallVerifier
       (with_handler (composed handler methodCallVerifier))
   else
     update_method methodCallVerifier (with_handler handler));;
  c ← deref_class this;
  assign_class this (with_verifiers (<[key := methodCallVerifier]> (_verifiers c)) c).

(** The two diagnostics of [verify]. *)
Definition never_called_message (key : string) (times : Z) : string :=
  "Verify error for method " +:+ key +:+
  ", method never have been called while we expected " +:+ pretty times +:+
  " calls".

Definition called_message (key : string) (called times : Z) : string :=
  "Verify error for method " +:+ key +:+ ", method has been called " +:+
  pretty called +:+ " and not " +:+ pretty times.

(** [_verifiers.at(key)->_called] *)
Definition called_at (c : MockClassVerifier) (key : string) : M Z :=
  p ← map_at (_verifiers c) key;
  m ← deref_method p;
  mret (_called m).

(** [bool verify(std::string methodName, const int times = -1) const] *)
Definition verify (this : loc) (methodName : string) (times : Z) : M bool :=
  c ← deref_class this;
  let key := _className c +:+ methodName in
  if negb (map_find (_verifiers c) key) then
    (if bool_decide (times > 0)
     then put_line cout (never_called_message key times)
     else mret ());;
    mret (bool_decide (times = 0))
  else
    called ← called_at c key;
    let result :=
      (bool_decide (times ≤ -1) && bool_decide (called > 0))
      || bool_decide (called = to_size_t times) in
    (if negb result
     then called ← called_at c key;
          put_line cout (called_message key called times)
     else mret ());;
    mret result.

(** ** [class MockVerifier] *)

(** [MockVerifier() = default]. *)
Definition MockVerifier_new : MockVerifier :=
  {| _mockedClass := ∅; _defaultMockedClass := ∅ |}.

Definition with_mockedClass (m : gmap address loc) (v : MockVerifier) : MockVerifier :=
  {| _mockedClass := m; _defaultMockedClass := _defaultMockedClass v |}.

Definition with_defaultMockedClass (m : gmap string loc) (v : MockVerifier) : MockVerifier :=
  {| _mockedClass := _mockedClass v; _defaultMockedClass := m |}.

Definition read_inst : M (option loc) := λ w, Returns (inst w) w.
Definition write_inst (i : option loc) : M unit := λ w, Returns () (set_inst i w).

(** The destruction of the object a [std::unique_ptr] gives up. *)
Definition delete_verifier (p : loc) : M unit := λ w,
  Returns () (set_verifierStore (delete p (verifierStore w)) w).

(** [static MockVerifier &instance()]; the result is the location of
    [*(inst.get())]. *)
Definition instance : M loc :=
  i ← read_inst;
  (if i is None then
     p ← make_unique_verifier MockVerifier_new; write_inst (Some p)
   else mret ());;
  i ← read_inst;
  match i with
  | Some p => mret p
  | None => undefined
  end.

(** [static void cleanUp()], that is [inst.reset()]. *)
Definition cleanUp : M unit :=
  i ← read_inst;
  match i with
  | Some p => delete_verifier p;; write_inst None
  | None => mret ()
  end.

(** [bool isMockRegistered(const void *mockPtr)] *)
Definition isMockRegistered (this : loc) (mockPtr : address) : M bool :=
  v ← deref_verifier this;
  mret (map_find (_mockedClass v) mockPtr).

(** [addMock<T>(const T *mockPtr)]; [className] stands for
    [TypeParseTraits<T>::ClassName], which the generator defines.  The
    result is the shared pointer held in the map. *)
Definition addMock (className : string) (this : loc) (mockPtr : address) : M loc :=
  p ← make_shared_class (MockClassVerifier_new className);
  v ← deref_verifier this;
  assign_verifier this (with_mockedClass (<[mockPtr := p]> (_mockedClass v)) v);;
  v ← deref_verifier this;
  map_at (_mockedClass v) mockPtr.

(** [addDefaultMock(const std::string &className)] *)
Definition addDefaultMock (this : loc) (className : string) : M loc :=
  p ← make_shared_class (MockClassVerifier_new className);
  v ← deref_verifier this;
  assign_verifier this
    (with_defaultMockedClass (<[className := p]> (_defaultMockedClass v)) v);;
  v ← deref_verifier this;
  map_at (_defaultMockedClass v) className.

(** [getMock<T>(const T *mockPtr)] *)
Definition getMock (className : string) (this : loc) (mockPtr : address) : M loc :=
  registered ← isMockRegistered this mockPtr;
  if negb registered then addMock className this mockPtr
  else v ← deref_verifier this; map_at (_mockedClass v) mockPtr.

(** [getDefaultMock(std::string classMockName)] *)
Definition getDefaultMock (this : loc) (classMockName : string) : M loc :=
  v ← deref_verifier this;
  if negb (map_find (_defaultMockedClass v) classMockName)
  then addDefaultMock this classMockName
  else v ← deref_verifier this; map_at (_defaultMockedClass v) classMockName.

(** ** The free functions *)

(** [FSeam::get<T>(const T *mockPtr)] *)
Definition get (className : string) (mockPtr : address) : M loc :=
  this ← instance; getMock className this mockPtr.

(** [FSeam::getDefault<T>()] *)
Definition getDefault (className : string) : M loc :=
  this ← instance; getDefaultMock this className.

(** ** Reading the ledger *)

(** The key of a method in the ledger of a [MockClassVerifier]. *)
Definition key_of (c : MockClassVerifier) (methodName : string) : string :=
  _className c +:+ methodName.

(** The ledger entry of a method of the verifier at [this], if there is
    one. *)
Definition ledger_entry (w : World) (this : loc) (methodName : string)
    : option MethodCallVerifier :=
  c ← classStore w !! this;
  p ← _verifiers c !! key_of c methodName;
  methodStore w !! p.

(** The recorded call count of a method: [_called] of its entry, and 0 when
    the method has no entry. *)
Definition recorded_calls (w : World) (this : loc) (methodName : string) : Z :=
  from_option _called 0 (ledger_entry w this methodName).

(** The world after [lines] were written. *)
Definition emit (lines : list (ostream * string)) (w : World) : World :=
  set_written (written w ++ lines) w.

(** The entry that [methodCall] leaves behind, from the entry [m] it
    found or made (lemma [methodCall_run] relates it to the code). *)
Definition recorded (methodName : string) (callingInfo : any)
    (m : MethodCallVerifier) : MethodCallVerifier :=
  {| _methodName := methodName;
     _called := vector_size (_calledData m ++ [callingInfo]);
     _handler := _handler m;
     _calledData := _calledData m ++ [callingInfo] |}.

(** The entry that [dupeMethod] leaves behind, from the entry [m] at [p]
    it found or made (lemma [dupeMethod_run] relates it to the code). *)
Definition duped (methodName : string) (handler : Handler) (isComposed : bool)
    (p : loc) (m : MethodCallVerifier) : MethodCallVerifier :=
  {| _methodName := methodName;
     _called := 0;
     _handler := if isComposed && has_target (_handler m)
                 then composed handler p else handler;
     _calledData := [] |}.

(** The entry on which [methodCall] and [dupeMethod] work: the one the key
    is mapped to, or a new one. *)
Inductive target (w : World) (c : MockClassVerifier) (key : string)
    : loc → MethodCallVerifier → Prop :=
| target_found p m :
    _verifiers c !! key = Some p → methodStore w !! p = Some m →
    target w c key p m
| target_made :
    _verifiers c !! key = None →
    target w c key (fresh (dom (methodStore w))) MethodCallVerifier_default.

(** The world after the entry at [p] became [m'] and [key] was mapped to
    [p] in the verifier at [this]. *)
Definition ledger_update (this : loc) (c : MockClassVerifier) (key : string)
    (p : loc) (m' : MethodCallVerifier) (w : World) : World :=
  set_classStore
    (<[this := with_verifiers (<[key := p]> (_verifiers c)) c]> (classStore w))
    (set_methodStore (<[p := m']> (methodStore w)) w).

(** ** Histories *)

(** The calls a test and the duped methods make on one
    [MockClassVerifier]. *)
Inductive ledger_call : Type :=
| call_methodCall (methodName : string) (callingInfo : any)
| call_dupeMethod (methodName : string) (handler : Handler) (isComposed : bool)
| call_verify (methodName : string) (times : Z).

Definition perform (this : loc) (op : ledger_call) : M unit :=
  match op with
  | call_methodCall methodName callingInfo => methodCall this methodName callingInfo
  | call_dupeMethod methodName handler isComposed =>
      dupeMethod this methodName handler isComposed
  | call_verify methodName times => verify this methodName times;; mret ()
  end.

(** The calls of a history, oldest first. *)
Fixpoint perform_all (this : loc) (ops : list ledger_call) : M unit :=
  match ops with
  | [] => mret ()
  | op :: ops => perform this op;; perform_all this ops
  end.

(** The number of [methodCall]s on [method] in a history read from its
    latest call backwards, up to the first [dupeMethod] on [method]. *)
Fixpoint calls_back_to_reset (method : string) (latest_first : list ledger_call) : Z :=
  match latest_first with
  | [] => 0
  | call_methodCall m _ :: older =>
      (if decide (m = method) then 1 else 0) + calls_back_to_reset method older
  | call_dupeMethod m _ _ :: older =>
      if decide (m = method) then 0 else calls_back_to_reset method older
  | call_verify _ _ :: older => calls_back_to_reset method older
  end.

(** The number of [methodCall]s on [method] since the last [dupeMethod] on
    it, or since the start of the history when there is none. *)
Definition calls_since_reset (method : string) (ops : list ledger_call) : Z :=
  calls_back_to_reset method (reverse ops).

(** ** Well-formed worlds *)

(** What shared and unique ownership give in C++: a pointer held in a map
    owns an object, and the objects made by different [make_shared] calls
    are different; and [_called] is the size of [_calledData].
    [World_initial] is well formed and every function of the header keeps
    worlds well formed (lemma [reachable_wf]). *)
Record wf (w : World) : Prop := mk_wf {
  wf_inst : ∀ v, inst w = Some v → is_Some (verifierStore w !! v);
  wf_mocked : ∀ v V a c,
    verifierStore w !! v = Some V → _mockedClass V !! a = Some c →
    is_Some (classStore w !! c);
  wf_default : ∀ v V n c,
    verifierStore w !! v = Some V → _defaultMockedClass V !! n = Some c →
    is_Some (classStore w !! c);
  wf_mocked_inj : ∀ v V a a' c,
    verifierStore w !! v = Some V →
    _mockedClass V !! a = Some c → _mockedClass V !! a' = Some c → a = a';
  wf_default_inj : ∀ v V n n' c,
    verifierStore w !! v = Some V →
    _defaultMockedClass V !! n = Some c → _defaultMockedClass V !! n' = Some c →
    n = n';
  wf_mocked_default : ∀ v V a n c c',
    verifierStore w !! v = Some V →
    _mockedClass V !! a = Some c → _defaultMockedClass V !! n = Some c' →
    c ≠ c';
  wf_entries : ∀ c C k p,
    classStore w !! c = Some C → _verifiers C !! k = Some p →
    is_Some (methodStore w !! p);
  wf_owner : ∀ c C k c' C' k' p,
    classStore w !! c = Some C → _verifiers C !! k = Some p →
    classStore w !! c' = Some C' → _verifiers C' !! k' = Some p →
    c = c' ∧ k = k';
  wf_called : ∀ p m,
    methodStore w !! p = Some m → _called m = vector_size (_calledData m)
}.

(** ** What [verify] answers and writes, from the entry it finds

    Lemma [verify_run] relates the two functions to the code. *)

Definition verify_result (entry : option MethodCallVerifier) (times : Z) : bool :=
  match entry with
  | None => bool_decide (times = 0)
  | Some m =>
      (bool_decide (times ≤ -1) && bool_decide (_called m > 0))
      || bool_decide (_called m = to_size_t times)
  end.

Definition verify_lines (key : string) (entry : option MethodCallVerifier)
    (times : Z) : list (ostream * string) :=
  match entry with
  | None =>
      if bool_decide (times > 0)
      then [(cout, never_called_message key times)] else []
  | Some m =>
      if verify_result entry times then []
      else [(cout, called_message key (_called m) times)]
  end.

(** ** The registry after a registration

    Lemmas [getMock_run_new] and [getDefaultMock_run_new] relate the two
    functions to the code. *)

(** The world after [addMock<T>(mockPtr)] made the verifier at [p] in the
    registry [v] at [this]. *)
Definition register_mock (className : string) (this : loc) (v : MockVerifier)
    (mockPtr : address) (p : loc) (w : World) : World :=
  set_verifierStore
    (<[this := with_mockedClass (<[mockPtr := p]> (_mockedClass v)) v]>
       (verifierStore w))
    (set_classStore (<[p := MockClassVerifier_new className]> (classStore w)) w).

(** The world after [addDefaultMock(className)]. *)
Definition register_default (this : loc) (v : MockVerifier)
    (className : string) (p : loc) (w : World) : World :=
  set_verifierStore
    (<[this := with_defaultMockedClass
                 (<[className := p]> (_defaultMockedClass v)) v]>
       (verifierStore w))
    (set_classStore (<[p := MockClassVerifier_new className]> (classStore w)) w).

(** The count of [method] after the call [op], from the count before. *)
Definition count_after (op : ledger_call) (method : string) (n : Z) : Z :=
  match op with
  | call_methodCall m _ => (if decide (m = method) then 1 else 0) + n
  | call_dupeMethod m _ _ => if decide (m = method) then 0 else n
  | call_verify _ _ => n
  end.

(** ** Undisturbed verifiers *)

(** Every method has the same entry in the verifier at [y] in [w'] as in
    [w]. *)
Definition same_ledger (y : loc) (w w' : World) : Prop :=
  ∀ m, ledger_entry w' y m = ledger_entry w y m.

(** The verifier at [y] is the same in [w'] as in [w], in all that
    [methodCall], [dupeMethod] and [verify] can show: every method has the
    same entry, [verify] gives the same answer and writes the same lines,
    and [methodCall] and [dupeMethod] leave the same ledger behind. *)
Definition undisturbed (y : loc) (w w' : World) : Prop :=
  same_ledger y w w' ∧
  (∀ m times, ∃ r lines,
     verify y m times w = Returns r (emit lines w) ∧
     verify y m times w' = Returns r (emit lines w')) ∧
  (∀ m callingInfo, ∃ w1 w1',
     methodCall y m callingInfo w = Returns () w1 ∧
     methodCall y m callingInfo w' = Returns () w1' ∧
     same_ledger y w1 w1') ∧
  (∀ m handler isComposed, ∃ w1 w1',
     dupeMethod y m handler isComposed w = Returns () w1 ∧
     dupeMethod y m handler isComposed w' = Returns () w1' ∧
     same_ledger y w1 w1').

(** ** Programs over the header *)

(** The calls a program can make, with the verifier or the registry each
    is made on. *)
Inductive api_call : Type :=
| api_instance
| api_cleanUp
| api_getMock (className : string) (this : loc) (mockPtr : address)
| api_getDefaultMock (this : loc) (classMockName : string)
| api_get (className : string) (mockPtr : address)
| api_getDefault (className : string)
| api_methodCall (this : loc) (methodName : string) (callingInfo : any)
| api_dupeMethod (this : loc) (methodName : string) (handler : Handler)
    (isComposed : bool)
| api_verify (this : loc) (methodName : string) (times : Z)
| api_invokeDupedMethod (fuel : nat) (this : loc) (methodName : string)
    (arg : address).

Definition api_run (c : api_call) : M unit :=
  match c with
  | api_instance => instance;; mret ()
  | api_cleanUp => cleanUp
  | api_getMock className this mockPtr => getMock className this mockPtr;; mret ()
  | api_getDefaultMock this name => getDefaultMock this name;; mret ()
  | api_get className mockPtr => get className mockPtr;; mret ()
  | api_getDefault className => getDefault className;; mret ()
  | api_methodCall this methodName callingInfo =>
      methodCall this methodName callingInfo
  | api_dupeMethod this methodName handler isComposed =>
      dupeMethod this methodName handler isComposed
  | api_verify this methodName times => verify this methodName times;; mret ()
  | api_invokeDupedMethod fuel this methodName arg =>
      invokeDupedMethod fuel this methodName arg
  end.

Fixpoint api_run_all (cs : list api_call) : M unit :=
  match cs with
  | [] => mret ()
  | c :: cs => api_run c;; api_run_all cs
  end.

(** ** An example *)

(** A payload holding a number. *)
Definition payload (n : nat) : any := @existT Type (λ T, T) nat n.

(** The world in which a call stopped. *)
Definition world_of {A} (o : outcome A) : World :=
  match o with
  | Returns _ w | Throws _ w | OutOfFuel w => w
  | Undefined => World_initial
  end.

(** A test with two objects of type [Foo], at the addresses 100 and 200,
    and [TypeParseTraits<Foo>::ClassName = "Foo"]: both objects and the
    default mock of [Foo] are looked up, then the first object records a
    call of [bar].  The registry and the three verifiers are the first
    objects made, so they sit at the first locations of their stores. *)
Definition example_calls : list api_call :=
  [ api_get "Foo" 100; api_get "Foo" 200; api_getDefault "Foo";
    api_methodCall 1%positive "bar" (payload 7) ].

Definition World_example : World :=
  world_of (api_run_all example_calls World_initial).

Definition example_registry : loc := 1%positive.
Definition example_first : loc := 1%positive.
Definition example_second : loc := 2%positive.
Definition example_default : loc := 3%positive.

(** ** More readings of the ledger *)

(** The smallest [int]. *)
Definition INT_MIN : Z := - 2 ^ 31.

(** The recorded payloads of a method: [_calledData] of its entry, and none
    when the method has no entry. *)
Definition recorded_payloads (w : World) (this : loc) (methodName : string)
    : list any :=
  from_option _calledData [] (ledger_entry w this methodName).

(** The stub of a method: [_handler] of its entry, and the empty function
    when the method has no entry. *)
Definition installed_handler (w : World) (this : loc) (methodName : string)
    : Handler :=
  from_option _handler empty_function (ledger_entry w this methodName).

(** The payloads of the [methodCall]s on [method] in a history read from
    its latest call backwards, up to the first [dupeMethod] on [method];
    the payloads come out oldest first. *)
Fixpoint payloads_back_to_reset (method : string) (latest_first : list ledger_call)
    : list any :=
  match latest_first with
  | [] => []
  | call_methodCall m callingInfo :: older =>
      payloads_back_to_reset method older
      ++ (if decide (m = method) then [callingInfo] else [])
  | call_dupeMethod m _ _ :: older =>
      if decide (m = method) then [] else payloads_back_to_reset method older
  | call_verify _ _ :: older => payloads_back_to_reset method older
  end.

(** The payloads of the [methodCall]s on [method] since the last
    [dupeMethod] on it, oldest first. *)
Definition payloads_since_reset (method : string) (ops : list ledger_call)
    : list any :=
  payloads_back_to_reset method (reverse ops).

(** The payloads of [method] after the call [op], from the payloads
    before. *)
Definition payloads_after (op : ledger_call) (method : string) (l : list any)
    : list any :=
  match op with
  | call_methodCall m callingInfo =>
      l ++ (if decide (m = method) then [callingInfo] else [])
  | call_dupeMethod m _ _ => if decide (m = method) then [] else l
  | call_verify _ _ => l
  end.

(** Every key of a ledger is the class name of its verifier followed by
    the method name kept in the entry. *)
Definition keyed (w : World) : Prop :=
  ∀ c C k p e,
    classStore w !! c = Some C → _verifiers C !! k = Some p →
    methodStore w !! p = Some e → k = key_of C (_methodName e).


(** The registry of [World_example]. *)
Definition example_registry_value : MockVerifier :=
  {| _mockedClass := {[ 100 := example_first; 200 := example_second ]};
     _defaultMockedClass := {[ "Foo" := example_default ]} |}.

(** * Properties *)

(** ** Running computations *)

Lemma bind_run {A B} (m : M A) (f : A → M B) (w : World) :
  (m ≫= f) w =
  match m w with
  | Returns a w' => f a w'
  | Throws e w' => Throws e w'
  | Undefined => Undefined
  | OutOfFuel w' => OutOfFuel w'
  end.
Proof. reflexivity. Qed.

Lemma ret_run {A} (a : A) (w : World) : (mret a : M A) w = Returns a w.
Proof. reflexivity. Qed.

Lemma ret_bind_run {A B} (a : A) (f : A → M B) (w : World) :
  (mret a ≫= f) w = f a w.
Proof. reflexivity. Qed.

Lemma destroy_method_bind_run {B} p (f : unit → M B) w :
  (destroy_method p ≫= f) w =
  f () (set_methodStore (delete p (methodStore w)) w).
Proof. reflexivity. Qed.

Lemma make_shared_method_bind_run {B} m (f : loc → M B) w :
  (make_shared_method m ≫= f) w =
  f (fresh (dom (methodStore w)))
    (set_methodStore (<[fresh (dom (methodStore w)) := m]> (methodStore w)) w).
Proof. reflexivity. Qed.

Lemma deref_class_run p c w :
  classStore w !! p = Some c → deref_class p w = Returns c w.
Proof. intros H. unfold deref_class. by rewrite H. Qed.

Lemma assign_class_run p c c' w :
  classStore w !! p = Some c →
  assign_class p c' w = Returns () (set_classStore (<[p := c']> (classStore w)) w).
Proof. intros H. unfold assign_class. by rewrite H. Qed.

Lemma deref_method_run p m w :
  methodStore w !! p = Some m → deref_method p w = Returns m w.
Proof. intros H. unfold deref_method. by rewrite H. Qed.

Lemma update_method_run p f m w :
  methodStore w !! p = Some m →
  update_method p f w = Returns () (set_methodStore (<[p := f m]> (methodStore w)) w).
Proof.
  intros H. unfold update_method, assign_method.
  rewrite bind_run, (deref_method_run _ _ _ H). by rewrite H.
Qed.

Lemma deref_verifier_run p v w :
  verifierStore w !! p = Some v → deref_verifier p w = Returns v w.
Proof. intros H. unfold deref_verifier. by rewrite H. Qed.

Lemma assign_verifier_run p v v' w :
  verifierStore w !! p = Some v →
  assign_verifier p v' w =
  Returns () (set_verifierStore (<[p := v']> (verifierStore w)) w).
Proof. intros H. unfold assign_verifier. by rewrite H. Qed.

Lemma map_find_Some `{Countable K} {V} (m : gmap K V) k v :
  m !! k = Some v → map_find m k = true.
Proof. intros E. unfold map_find. apply bool_decide_eq_true_2. eauto. Qed.

Lemma map_find_None `{Countable K} {V} (m : gmap K V) k :
  m !! k = None → map_find m k = false.
Proof.
  intros E. unfold map_find. apply bool_decide_eq_false_2.
  rewrite E. by intros [? ?].
Qed.

Lemma map_at_run `{Countable K} {V} (m : gmap K V) k v w :
  m !! k = Some v → map_at m k w = Returns v w.
Proof. intros E. unfold map_at. by rewrite E. Qed.

Lemma fresh_method_None (w : World) :
  methodStore w !! fresh (dom (methodStore w)) = None.
Proof. apply not_elem_of_dom, is_fresh. Qed.

Lemma fresh_class_None (w : World) :
  classStore w !! fresh (dom (classStore w)) = None.
Proof. apply not_elem_of_dom, is_fresh. Qed.

Lemma fresh_verifier_None (w : World) :
  verifierStore w !! fresh (dom (verifierStore w)) = None.
Proof. apply not_elem_of_dom, is_fresh. Qed.

Lemma World_eq w w' :
  methodStore w = methodStore w' → classStore w = classStore w' →
  verifierStore w = verifierStore w' → inst w = inst w' →
  written w = written w' → invoked w = invoked w' → w = w'.
Proof. destruct w, w'; simpl; by intros -> -> -> -> -> ->. Qed.

Lemma emit_nil w : emit [] w = w.
Proof. apply World_eq; simpl; try done. apply app_nil_r. Qed.

Ltac lookup_now := simpl; first [eassumption | by simplify_map_eq].

(** One step of a computation whose first action is a read or a write of a
    store that the context determines. *)
Ltac mstep :=
  rewrite bind_run;
  first
    [ erewrite deref_class_run by lookup_now
    | erewrite assign_class_run by lookup_now
    | erewrite deref_method_run by lookup_now
    | erewrite update_method_run by lookup_now
    | erewrite deref_verifier_run by lookup_now
    | erewrite assign_verifier_run by lookup_now
    | erewrite map_at_run by lookup_now ].

(** ** What [methodCall] and [dupeMethod] do to the stores *)

Lemma methodCall_run this methodName callingInfo w c p m :
  classStore w !! this = Some c →
  target w c (key_of c methodName) p m →
  methodCall this methodName callingInfo w =
  Returns () (ledger_update this c (key_of c methodName) p
                (recorded methodName callingInfo m) w).
Proof.
  intros Hc Ht. unfold methodCall, ledger_update, key_of in *.
  destruct Ht as [p m Hk Hm | Hk].
  - mstep. rewrite (map_find_Some _ _ _ Hk). cbv iota.
    do 5 mstep. erewrite assign_class_run by lookup_now.
    simpl. by rewrite !insert_insert_eq.
  - mstep. rewrite (map_find_None _ _ Hk). cbv iota.
    rewrite make_shared_method_bind_run.
    do 4 mstep. erewrite assign_class_run by lookup_now.
    simpl. by rewrite !insert_insert_eq.
Qed.

Lemma dupeMethod_run this methodName handler isComposed w c p m :
  classStore w !! this = Some c →
  target w c (key_of c methodName) p m →
  dupeMethod this methodName handler isComposed w =
  Returns () (ledger_update this c (key_of c methodName) p
                (duped methodName handler isComposed p m) w).
Proof.
  intros Hc Ht. unfold dupeMethod, ledger_update, key_of in *.
  rewrite make_shared_method_bind_run.
  pose proof (fresh_method_None w) as Hf.
  destruct Ht as [p m Hk Hm | Hk].
  - assert (p ≠ fresh (dom (methodStore w))) as Hne by congruence.
    mstep. rewrite (map_find_Some _ _ _ Hk). cbv iota.
    rewrite bind_run. mstep.
    rewrite destroy_method_bind_run, ret_run. simpl methodStore.
    rewrite delete_insert_eq, (delete_id _ _ Hf).
    do 4 mstep.
    destruct (isComposed && has_target _) eqn:E; simpl in E;
      do 2 mstep; erewrite assign_class_run by lookup_now;
      simpl; rewrite !insert_insert_eq; unfold duped; simpl; by rewrite E.
  - mstep. rewrite (map_find_None _ _ Hk). cbv iota.
    rewrite ret_bind_run.
    do 4 mstep. simpl has_target. rewrite andb_false_r.
    do 2 mstep; erewrite assign_class_run by lookup_now.
    simpl. rewrite !insert_insert_eq. unfold duped. simpl.
    by rewrite andb_false_r.
Qed.

(** ** Keys *)

Lemma append_inj (s t1 t2 : string) : s +:+ t1 = s +:+ t2 → t1 = t2.
Proof. induction s as [|a s IH]; simpl; [done|]. intros [= E]. auto. Qed.

Lemma key_of_inj c m1 m2 : key_of c m1 = key_of c m2 → m1 = m2.
Proof. apply append_inj. Qed.

(** ** The entry [methodCall] and [dupeMethod] work on *)

Lemma target_exists w c C key :
  wf w → classStore w !! c = Some C → ∃ p m, target w C key p m.
Proof.
  intros Hwf Hc. destruct (_verifiers C !! key) as [p|] eqn:Hk.
  - destruct (wf_entries w Hwf c C key p Hc Hk) as [m Hm].
    exists p, m. by constructor.
  - eexists _, _. by apply target_made.
Qed.

Lemma target_called w c key p m :
  wf w → target w c key p m → _called m = vector_size (_calledData m).
Proof. intros Hwf [p' m' _ Hm|_]; [by eapply wf_called|done]. Qed.

(** The entry worked on belongs to no other key of any verifier. *)
Lemma target_elsewhere w this c key p m y C k q :
  wf w → classStore w !! this = Some c → target w c key p m →
  classStore w !! y = Some C → _verifiers C !! k = Some q →
  (y ≠ this ∨ k ≠ key) → q ≠ p.
Proof.
  intros Hwf Hc Ht Hy Hk Hne ->. destruct Ht as [p m Hkey Hm | Hkey].
  - destruct (wf_owner w Hwf _ _ _ _ _ _ _ Hy Hk Hc Hkey) as [-> ->].
    by destruct Hne.
  - destruct (wf_entries w Hwf _ _ _ _ Hy Hk) as [m Hm].
    by rewrite fresh_method_None in Hm.
Qed.

(** ** The ledger after an update *)

Lemma ledger_entry_update_same this c methodName p m' w :
  classStore w !! this = Some c →
  ledger_entry (ledger_update this c (key_of c methodName) p m' w) this methodName
  = Some m'.
Proof.
  intros Hc. unfold ledger_entry, ledger_update. simpl.
  rewrite lookup_insert_eq. simpl. unfold key_of at 1. simpl.
  fold (key_of c methodName). rewrite lookup_insert_eq. simpl.
  by rewrite lookup_insert_eq.
Qed.

Lemma ledger_entry_update_other this c methodName p m m' w y methodName' :
  wf w → classStore w !! this = Some c →
  target w c (key_of c methodName) p m →
  (y ≠ this ∨ methodName' ≠ methodName) →
  ledger_entry (ledger_update this c (key_of c methodName) p m' w) y methodName'
  = ledger_entry w y methodName'.
Proof.
  intros Hwf Hc Ht Hne. unfold ledger_entry, ledger_update. simpl.
  destruct (decide (y = this)) as [->|Hy].
  - destruct Hne as [?|Hne]; [done|].
    rewrite lookup_insert_eq, Hc. simpl.
    change (key_of (with_verifiers ?v c) ?n) with (key_of c n).
    assert (key_of c methodName' ≠ key_of c methodName) as Hk
      by (intros E; by apply key_of_inj in E).
    rewrite lookup_insert_ne by done.
    destruct (_verifiers c !! key_of c methodName') as [q|] eqn:Hq; [|done].
    simpl. apply lookup_insert_ne. intros E.
    by eapply (target_elsewhere w this c _ _ _ this c _ q Hwf Hc Ht Hc Hq); eauto.
  - rewrite lookup_insert_ne by done.
    destruct (classStore w !! y) as [C|] eqn:HC; [|done]. simpl.
    destruct (_verifiers C !! key_of C methodName') as [q|] eqn:Hq; [|done].
    simpl. apply lookup_insert_ne. intros E.
    by eapply (target_elsewhere w this c _ _ _ y C _ q Hwf Hc Ht HC Hq); eauto.
Qed.

(** ** Updates keep worlds well formed *)

(** The keys mapped to an entry after an update: the key updated, and the
    keys mapped before. *)
Lemma ledger_update_owner this c key p m' w y C k q :
  classStore w !! this = Some c →
  classStore (ledger_update this c key p m' w) !! y = Some C →
  _verifiers C !! k = Some q →
  (y = this ∧ k = key ∧ q = p) ∨
  ((y ≠ this ∨ k ≠ key) ∧
   ∃ C0, classStore w !! y = Some C0 ∧ _verifiers C0 !! k = Some q).
Proof.
  intros Hc. unfold ledger_update. simpl. intros HC Hk.
  destruct (decide (y = this)) as [->|Hy].
  - rewrite lookup_insert_eq in HC. injection HC as <-. simpl in Hk.
    destruct (decide (k = key)) as [->|Hkey].
    + rewrite lookup_insert_eq in Hk. injection Hk as <-. by left.
    + rewrite lookup_insert_ne in Hk by done. right. split; [by right|].
      by exists c.
  - rewrite lookup_insert_ne in HC by done. right. split; [by left|].
    by exists C.
Qed.

Lemma wf_ledger_update this c key p m m' w :
  wf w → classStore w !! this = Some c → target w c key p m →
  _called m' = vector_size (_calledData m') →
  wf (ledger_update this c key p m' w).
Proof.
  intros Hwf Hc Ht Hm'. split.
  - apply (wf_inst w Hwf).
  - intros v V a x HV Ha. simpl. apply lookup_insert_is_Some'. right.
    by eapply (wf_mocked w Hwf).
  - intros v V n x HV Hn. simpl. apply lookup_insert_is_Some'. right.
    by eapply (wf_default w Hwf).
  - apply (wf_mocked_inj w Hwf).
  - apply (wf_default_inj w Hwf).
  - apply (wf_mocked_default w Hwf).
  - intros y C k q HC Hk.
    destruct (ledger_update_owner _ _ _ _ _ _ _ _ _ _ Hc HC Hk)
      as [(-> & -> & ->) | (_ & C0 & HC0 & Hk0)]; simpl.
    + rewrite lookup_insert_eq. eauto.
    + apply lookup_insert_is_Some'. right. by eapply (wf_entries w Hwf).
  - intros y C k y' C' k' q HC Hk HC' Hk'.
    destruct (ledger_update_owner _ _ _ _ _ _ _ _ _ _ Hc HC Hk)
      as [(-> & -> & ->) | (Hne & C0 & HC0 & Hk0)];
    destruct (ledger_update_owner _ _ _ _ _ _ _ _ _ _ Hc HC' Hk')
      as [(-> & -> & E) | (Hne' & C0' & HC0' & Hk0')].
    + done.
    + by destruct (target_elsewhere w _ _ _ _ _ _ _ _ _ Hwf Hc Ht HC0' Hk0' Hne').
    + subst q.
      by destruct (target_elsewhere w _ _ _ _ _ _ _ _ _ Hwf Hc Ht HC0 Hk0 Hne).
    + by eapply (wf_owner w Hwf).
  - intros q x. simpl. intros Hq.
    destruct (decide (q = p)) as [->|Hqp].
    + rewrite lookup_insert_eq in Hq. by injection Hq as <-.
    + rewrite lookup_insert_ne in Hq by done. by eapply (wf_called w Hwf).
Qed.

(** ** What [verify] does *)

Lemma ledger_entry_None w this c methodName :
  wf w → classStore w !! this = Some c →
  ledger_entry w this methodName = None ↔
  _verifiers c !! key_of c methodName = None.
Proof.
  intros Hwf Hc. unfold ledger_entry. rewrite Hc. simpl.
  destruct (_verifiers c !! key_of c methodName) as [p|] eqn:Hk; simpl; [|done].
  destruct (wf_entries w Hwf _ _ _ _ Hc Hk) as [m ->]. done.
Qed.

Lemma called_at_run c key p m w :
  _verifiers c !! key = Some p → methodStore w !! p = Some m →
  called_at c key w = Returns (_called m) w.
Proof. intros Hk Hm. unfold called_at. by do 2 mstep. Qed.

Lemma verify_run this methodName times w c :
  wf w → classStore w !! this = Some c →
  verify this methodName times w =
  Returns (verify_result (ledger_entry w this methodName) times)
    (emit (verify_lines (key_of c methodName)
             (ledger_entry w this methodName) times) w).
Proof.
  intros Hwf Hc. unfold verify, ledger_entry. rewrite Hc. simpl.
  fold (key_of c methodName).
  mstep. fold (key_of c methodName).
  destruct (_verifiers c !! key_of c methodName) as [p|] eqn:Hk; simpl.
  - rewrite (map_find_Some _ _ _ Hk). simpl.
    destruct (wf_entries w Hwf _ _ _ _ Hc Hk) as [m Hm]. rewrite Hm. simpl.
    rewrite bind_run, (called_at_run _ _ _ _ _ Hk Hm).
    destruct (_ || _) eqn:E; simpl.
    + by rewrite emit_nil.
    + by rewrite !bind_run, (called_at_run _ _ _ _ _ Hk Hm).
  - rewrite (map_find_None _ _ Hk). simpl.
    destruct (bool_decide (times > 0)); simpl; [done|]. by rewrite emit_nil.
Qed.

(** ** What the registry functions do *)

Lemma instance_run_some w v : inst w = Some v → instance w = Returns v w.
Proof.
  intros H. unfold instance, read_inst.
  rewrite bind_run, H, bind_run, ret_run, bind_run. by rewrite H.
Qed.

Lemma instance_run_none w :
  inst w = None →
  let v := fresh (dom (verifierStore w)) in
  instance w =
  Returns v (set_inst (Some v)
               (set_verifierStore (<[v := MockVerifier_new]> (verifierStore w)) w)).
Proof. intros H. unfold instance, read_inst. rewrite bind_run, H. reflexivity. Qed.

Lemma cleanUp_run w :
  cleanUp w =
  Returns ()
    (match inst w with
     | Some v => set_inst None (set_verifierStore (delete v (verifierStore w)) w)
     | None => w
     end).
Proof. unfold cleanUp, read_inst. rewrite bind_run. by destruct (inst w). Qed.

Lemma isMockRegistered_run this v mockPtr w :
  verifierStore w !! this = Some v →
  isMockRegistered this mockPtr w = Returns (map_find (_mockedClass v) mockPtr) w.
Proof. intros H. unfold isMockRegistered. by mstep. Qed.

Lemma getMock_run_known className this v mockPtr p w :
  verifierStore w !! this = Some v → _mockedClass v !! mockPtr = Some p →
  getMock className this mockPtr w = Returns p w.
Proof.
  intros Hv Hp. unfold getMock.
  rewrite bind_run, (isMockRegistered_run _ _ _ _ Hv), (map_find_Some _ _ _ Hp).
  cbv iota beta. cbn [negb]. cbv iota. mstep. by erewrite map_at_run.
Qed.

Lemma getMock_run_new className this v mockPtr w :
  verifierStore w !! this = Some v → _mockedClass v !! mockPtr = None →
  getMock className this mockPtr w =
  Returns (fresh (dom (classStore w)))
    (register_mock className this v mockPtr (fresh (dom (classStore w))) w).
Proof.
  intros Hv Hp. unfold getMock.
  rewrite bind_run, (isMockRegistered_run _ _ _ _ Hv), (map_find_None _ _ Hp).
  cbv iota beta. cbn [negb]. cbv iota. unfold addMock.
  rewrite bind_run. unfold make_shared_class at 1. cbv iota beta zeta.
  do 3 mstep. erewrite map_at_run by (simpl; apply lookup_insert_eq). done.
Qed.

Lemma getDefaultMock_run_known this v className p w :
  verifierStore w !! this = Some v → _defaultMockedClass v !! className = Some p →
  getDefaultMock this className w = Returns p w.
Proof.
  intros Hv Hp. unfold getDefaultMock.
  mstep. rewrite (map_find_Some _ _ _ Hp). cbn [negb]. cbv iota.
  mstep. by erewrite map_at_run.
Qed.

Lemma getDefaultMock_run_new this v className w :
  verifierStore w !! this = Some v → _defaultMockedClass v !! className = None →
  getDefaultMock this className w =
  Returns (fresh (dom (classStore w)))
    (register_default this v className (fresh (dom (classStore w))) w).
Proof.
  intros Hv Hp. unfold getDefaultMock.
  mstep. rewrite (map_find_None _ _ Hp). cbn [negb]. cbv iota.
  unfold addDefaultMock.
  rewrite bind_run. unfold make_shared_class at 1. cbv iota beta zeta.
  do 3 mstep. erewrite map_at_run by (simpl; apply lookup_insert_eq). done.
Qed.

(** ** The invariant *)

Lemma wf_initial : wf World_initial.
Proof. split; simpl; intros; simplify_map_eq. Qed.

(** Well-formedness looks at the stores and at [inst] only. *)
Lemma wf_same_stores w w' :
  wf w → methodStore w' = methodStore w → classStore w' = classStore w →
  verifierStore w' = verifierStore w → inst w' = inst w → wf w'.
Proof.
  intros [] Em Ec Ev Ei. split; rewrite ?Em, ?Ec, ?Ev, ?Ei; assumption.
Qed.

Lemma wf_emit lines w : wf w → wf (emit lines w).
Proof. intros H. by apply (wf_same_stores w). Qed.

Lemma wf_set_invoked l w : wf w → wf (set_invoked l w).
Proof. intros H. by apply (wf_same_stores w). Qed.

Lemma wf_instance_new w :
  wf w →
  wf (set_inst (Some (fresh (dom (verifierStore w))))
        (set_verifierStore
           (<[fresh (dom (verifierStore w)) := MockVerifier_new]> (verifierStore w))
           w)).
Proof.
  intros Hwf. pose proof (fresh_verifier_None w) as Hf.
  set (v := fresh (dom (verifierStore w))) in *.
  assert (∀ v0 V, <[v := MockVerifier_new]> (verifierStore w) !! v0 = Some V →
            verifierStore w !! v0 = Some V ∨ V = MockVerifier_new) as Hcase.
  { intros v0 V. destruct (decide (v0 = v)) as [->|Hne].
    - rewrite lookup_insert_eq. intros [= <-]. by right.
    - rewrite lookup_insert_ne by done. by left. }
  split; simpl.
  - intros v0 [= <-]. rewrite lookup_insert_eq. eauto.
  - intros v0 V a c HV. destruct (Hcase _ _ HV) as [H| ->]; [|done].
    by apply (wf_mocked w Hwf v0).
  - intros v0 V n c HV. destruct (Hcase _ _ HV) as [H| ->]; [|done].
    by apply (wf_default w Hwf v0).
  - intros v0 V a a' c HV. destruct (Hcase _ _ HV) as [H| ->]; [|done].
    by apply (wf_mocked_inj w Hwf v0).
  - intros v0 V n n' c HV. destruct (Hcase _ _ HV) as [H| ->]; [|done].
    by apply (wf_default_inj w Hwf v0).
  - intros v0 V a n c c' HV. destruct (Hcase _ _ HV) as [H| ->]; [|done].
    by apply (wf_mocked_default w Hwf v0).
  - apply (wf_entries w Hwf).
  - apply (wf_owner w Hwf).
  - apply (wf_called w Hwf).
Qed.

Lemma wf_cleanUp_some w v :
  wf w → wf (set_inst None (set_verifierStore (delete v (verifierStore w)) w)).
Proof.
  intros Hwf.
  assert (∀ v0 V, delete v (verifierStore w) !! v0 = Some V →
            verifierStore w !! v0 = Some V) as Hold.
  { intros v0 V. rewrite lookup_delete_Some. tauto. }
  split; simpl.
  - done.
  - intros v0 V a c HV. by apply (wf_mocked w Hwf v0), Hold.
  - intros v0 V n c HV. by apply (wf_default w Hwf v0), Hold.
  - intros v0 V a a' c HV. by apply (wf_mocked_inj w Hwf v0), Hold.
  - intros v0 V n n' c HV. by apply (wf_default_inj w Hwf v0), Hold.
  - intros v0 V a n c c' HV. by apply (wf_mocked_default w Hwf v0), Hold.
  - apply (wf_entries w Hwf).
  - apply (wf_owner w Hwf).
  - apply (wf_called w Hwf).
Qed.

(** A verifier just made owns no entry, and no map holds it yet. *)
Section registration.
Variables (w : World) (this : loc) (v : MockVerifier).
Hypothesis Hwf : wf w.
Hypothesis Hv : verifierStore w !! this = Some v.

Let p := fresh (dom (classStore w)).

Lemma fresh_class_not_mocked a : _mockedClass v !! a ≠ Some p.
Proof.
  intros H. destruct (wf_mocked w Hwf _ _ _ _ Hv H) as [c Hc].
  unfold p in Hc. by rewrite fresh_class_None in Hc.
Qed.

Lemma fresh_class_not_default n : _defaultMockedClass v !! n ≠ Some p.
Proof.
  intros H. destruct (wf_default w Hwf _ _ _ _ Hv H) as [c Hc].
  unfold p in Hc. by rewrite fresh_class_None in Hc.
Qed.

Lemma classStore_fresh_insert className y C :
  <[p := MockClassVerifier_new className]> (classStore w) !! y = Some C →
  classStore w !! y = Some C ∨ (y = p ∧ C = MockClassVerifier_new className).
Proof.
  destruct (decide (y = p)) as [->|Hne].
  - rewrite lookup_insert_eq. intros [= <-]. by right.
  - rewrite lookup_insert_ne by done. by left.
Qed.

Lemma verifierStore_insert_this V' v0 V :
  <[this := V']> (verifierStore w) !! v0 = Some V →
  (v0 = this ∧ V = V') ∨ verifierStore w !! v0 = Some V.
Proof.
  destruct (decide (v0 = this)) as [->|Hne].
  - rewrite lookup_insert_eq. intros [= <-]. by left.
  - rewrite lookup_insert_ne by done. by right.
Qed.

Lemma fresh_class_owns_nothing className y C k q y' C' k' :
  <[p := MockClassVerifier_new className]> (classStore w) !! y = Some C →
  _verifiers C !! k = Some q →
  <[p := MockClassVerifier_new className]> (classStore w) !! y' = Some C' →
  _verifiers C' !! k' = Some q →
  is_Some (methodStore w !! q) ∧ y = y' ∧ k = k'.
Proof.
  intros HC Hk HC' Hk'.
  destruct (classStore_fresh_insert _ _ _ HC) as [H|[_ ->]]; [|done].
  destruct (classStore_fresh_insert _ _ _ HC') as [H'|[_ ->]]; [|done].
  split; [by eapply (wf_entries w Hwf)|by eapply (wf_owner w Hwf)].
Qed.

Lemma wf_register_mock className mockPtr :
  wf (register_mock className this v mockPtr p w).
Proof.
  pose proof fresh_class_not_mocked as Hnm.
  pose proof fresh_class_not_default as Hnd.
  assert (∀ a c, <[mockPtr := p]> (_mockedClass v) !! a = Some c →
            (a = mockPtr ∧ c = p) ∨ _mockedClass v !! a = Some c) as Hm.
  { intros a c. destruct (decide (a = mockPtr)) as [->|Hne].
    - rewrite lookup_insert_eq. intros [= <-]. by left.
    - rewrite lookup_insert_ne by done. by right. }
  unfold register_mock. split; simpl.
  - intros v0 Hi. apply lookup_insert_is_Some'. right.
    by apply (wf_inst w Hwf).
  - intros v0 V a c HV Ha. apply lookup_insert_is_Some'.
    destruct (verifierStore_insert_this _ _ _ HV) as [[-> ->]|HV0].
    + destruct (Hm _ _ Ha) as [[_ ->]|Ha0]; [by left|right].
      by eapply (wf_mocked w Hwf).
    + right. by eapply (wf_mocked w Hwf).
  - intros v0 V n c HV Hn. apply lookup_insert_is_Some'. right.
    destruct (verifierStore_insert_this _ _ _ HV) as [[-> ->]|HV0];
      by eapply (wf_default w Hwf).
  - intros v0 V a a' c HV Ha Ha'.
    destruct (verifierStore_insert_this _ _ _ HV) as [[-> ->]|HV0];
      [|by eapply (wf_mocked_inj w Hwf)].
    destruct (Hm _ _ Ha) as [[-> ->]|Ha0];
      destruct (Hm _ _ Ha') as [[-> E]|Ha0']; subst; try done.
    * by destruct (Hnm a').
    * by destruct (Hnm a).
    * by eapply (wf_mocked_inj w Hwf).
  - intros v0 V n n' c HV Hn Hn'.
    destruct (verifierStore_insert_this _ _ _ HV) as [[-> ->]|HV0];
      by eapply (wf_default_inj w Hwf).
  - intros v0 V a n c c' HV Ha Hn.
    destruct (verifierStore_insert_this _ _ _ HV) as [[-> ->]|HV0];
      [|by eapply (wf_mocked_default w Hwf)].
    destruct (Hm _ _ Ha) as [[-> ->]|Ha0].
    + intros <-. by destruct (Hnd n).
    + by eapply (wf_mocked_default w Hwf).
  - intros y C k q HC Hk.
    by destruct (fresh_class_owns_nothing _ _ _ _ _ _ _ _ HC Hk HC Hk).
  - intros y C k y' C' k' q HC Hk HC' Hk'.
    by destruct (fresh_class_owns_nothing _ _ _ _ _ _ _ _ HC Hk HC' Hk').
  - apply (wf_called w Hwf).
Qed.

Lemma wf_register_default className :
  wf (register_default this v className p w).
Proof.
  pose proof fresh_class_not_mocked as Hnm.
  pose proof fresh_class_not_default as Hnd.
  assert (∀ n c, <[className := p]> (_defaultMockedClass v) !! n = Some c →
            (n = className ∧ c = p) ∨ _defaultMockedClass v !! n = Some c) as Hm.
  { intros n c. destruct (decide (n = className)) as [->|Hne].
    - rewrite lookup_insert_eq. intros [= <-]. by left.
    - rewrite lookup_insert_ne by done. by right. }
  unfold register_default. split; simpl.
  - intros v0 Hi. apply lookup_insert_is_Some'. right.
    by apply (wf_inst w Hwf).
  - intros v0 V a c HV Ha. apply lookup_insert_is_Some'. right.
    destruct (verifierStore_insert_this _ _ _ HV) as [[-> ->]|HV0];
      by eapply (wf_mocked w Hwf).
  - intros v0 V n c HV Hn. apply lookup_insert_is_Some'.
    destruct (verifierStore_insert_this _ _ _ HV) as [[-> ->]|HV0].
    + destruct (Hm _ _ Hn) as [[_ ->]|Hn0]; [by left|right].
      by eapply (wf_default w Hwf).
    + right. by eapply (wf_default w Hwf).
  - intros v0 V a a' c HV Ha Ha'.
    destruct (verifierStore_insert_this _ _ _ HV) as [[-> ->]|HV0];
      by eapply (wf_mocked_inj w Hwf).
  - intros v0 V n n' c HV Hn Hn'.
    destruct (verifierStore_insert_this _ _ _ HV) as [[-> ->]|HV0];
      [|by eapply (wf_default_inj w Hwf)].
    destruct (Hm _ _ Hn) as [[-> ->]|Hn0];
      destruct (Hm _ _ Hn') as [[-> E]|Hn0']; subst; try done.
    * by destruct (Hnd n').
    * by destruct (Hnd n).
    * by eapply (wf_default_inj w Hwf).
  - intros v0 V a n c c' HV Ha Hn.
    destruct (verifierStore_insert_this _ _ _ HV) as [[-> ->]|HV0];
      [|by eapply (wf_mocked_default w Hwf)].
    destruct (Hm _ _ Hn) as [[-> ->]|Hn0].
    + intros ->. by destruct (Hnm a).
    + by eapply (wf_mocked_default w Hwf).
  - intros y C k q HC Hk.
    by destruct (fresh_class_owns_nothing _ _ _ _ _ _ _ _ HC Hk HC Hk).
  - intros y C k y' C' k' q HC Hk HC' Hk'.
    by destruct (fresh_class_owns_nothing _ _ _ _ _ _ _ _ HC Hk HC' Hk').
  - apply (wf_called w Hwf).
Qed.
End registration.

(** Every member function that returns leaves a well-formed world. *)

Lemma methodCall_wf this methodName callingInfo w r w' :
  wf w → methodCall this methodName callingInfo w = Returns r w' → wf w'.
Proof.
  intros Hwf. destruct (classStore w !! this) as [c|] eqn:Hc.
  - destruct (target_exists w this c (key_of c methodName) Hwf Hc) as (p & m & Ht).
    rewrite (methodCall_run _ _ _ _ _ _ _ Hc Ht). intros [= _ <-].
    apply (wf_ledger_update _ _ _ _ m); try done.
  - unfold methodCall, deref_class. rewrite bind_run, Hc. done.
Qed.

Lemma dupeMethod_wf this methodName handler isComposed w r w' :
  wf w → dupeMethod this methodName handler isComposed w = Returns r w' → wf w'.
Proof.
  intros Hwf. destruct (classStore w !! this) as [c|] eqn:Hc.
  - destruct (target_exists w this c (key_of c methodName) Hwf Hc) as (p & m & Ht).
    rewrite (dupeMethod_run _ _ _ _ _ _ _ _ Hc Ht). intros [= _ <-].
    apply (wf_ledger_update _ _ _ _ m); try done.
  - unfold dupeMethod, deref_class.
    rewrite make_shared_method_bind_run, bind_run. simpl classStore.
    by rewrite Hc.
Qed.

Lemma verify_wf this methodName times w r w' :
  wf w → verify this methodName times w = Returns r w' → wf w'.
Proof.
  intros Hwf. destruct (classStore w !! this) as [c|] eqn:Hc.
  - rewrite (verify_run _ _ _ _ _ Hwf Hc). intros [= _ <-]. by apply wf_emit.
  - unfold verify, deref_class. rewrite bind_run, Hc. done.
Qed.

(** A handler touches nothing but the record of the calls to the callables
    of the test. *)
Lemma call_stores fuel h data w r w' :
  call fuel h data w = Returns r w' →
  ∃ l, w' = set_invoked (invoked w ++ l) w.
Proof.
  revert h w r w'. induction fuel as [|fuel IH]; intros h w r w'.
  - destruct h as [|f|h p]; simpl; [done| |done].
    unfold run_callable. intros [= _ <-]. eauto.
  - destruct h as [|f|h p]; simpl; [done| |].
    + unfold run_callable. intros [= _ <-]. eauto.
    + rewrite bind_run. unfold deref_method at 1.
      destruct (methodStore w !! p) as [m|]; [|done].
      rewrite bind_run.
      destruct (call fuel (_handler m) data w) as [[] w1| | |] eqn:E1; try done.
      intros E2. apply IH in E1 as [l1 ->]. apply IH in E2 as [l2 ->].
      exists (l1 ++ l2). simpl. by rewrite app_assoc.
Qed.

Lemma invokeDupedMethod_stores fuel this methodName arg w r w' :
  invokeDupedMethod fuel this methodName arg w = Returns r w' →
  ∃ l, w' = set_invoked (invoked w ++ l) w.
Proof.
  assert (w = set_invoked (invoked w ++ []) w) as Hid
    by (apply World_eq; simpl; by rewrite ?app_nil_r).
  unfold invokeDupedMethod. rewrite bind_run. unfold deref_class at 1.
  destruct (classStore w !! this) as [c|]; [|done].
  destruct (map_find _ _); [|intros [= _ <-]; eauto].
  rewrite bind_run. unfold map_at.
  destruct (_verifiers c !! _) as [p|]; [|done]. rewrite ret_run, bind_run.
  unfold deref_method at 1. destruct (methodStore w !! p) as [m|]; [|done].
  destruct (has_target _); [apply call_stores|intros [= _ <-]; eauto].
Qed.

Lemma invokeDupedMethod_wf fuel this methodName arg w r w' :
  wf w → invokeDupedMethod fuel this methodName arg w = Returns r w' → wf w'.
Proof.
  intros Hwf E. apply invokeDupedMethod_stores in E as [l ->].
  by apply wf_set_invoked.
Qed.

Lemma instance_wf w v w' : wf w → instance w = Returns v w' → wf w'.
Proof.
  intros Hwf. destruct (inst w) as [v0|] eqn:Hi.
  - rewrite (instance_run_some _ _ Hi). by intros [= _ <-].
  - rewrite (instance_run_none _ Hi). intros [= _ <-]. by apply wf_instance_new.
Qed.

Lemma instance_owns w v w' :
  wf w → instance w = Returns v w' → is_Some (verifierStore w' !! v).
Proof.
  intros Hwf. destruct (inst w) as [v0|] eqn:Hi.
  - rewrite (instance_run_some _ _ Hi). intros [= <- <-]. by apply (wf_inst w Hwf).
  - rewrite (instance_run_none _ Hi). intros [= <- <-]. simpl.
    rewrite lookup_insert_eq. eauto.
Qed.

Lemma cleanUp_wf w r w' : wf w → cleanUp w = Returns r w' → wf w'.
Proof.
  intros Hwf. rewrite cleanUp_run. intros [= _ <-].
  destruct (inst w); [by apply wf_cleanUp_some|done].
Qed.

Lemma getMock_wf className this mockPtr w p w' :
  wf w → getMock className this mockPtr w = Returns p w' → wf w'.
Proof.
  intros Hwf. destruct (verifierStore w !! this) as [v|] eqn:Hv.
  - destruct (_mockedClass v !! mockPtr) as [q|] eqn:Hq.
    + rewrite (getMock_run_known _ _ _ _ _ _ Hv Hq). by intros [= _ <-].
    + rewrite (getMock_run_new _ _ _ _ _ Hv Hq). intros [= _ <-].
      by apply wf_register_mock.
  - unfold getMock, isMockRegistered, deref_verifier.
    rewrite !bind_run, Hv. done.
Qed.

Lemma getDefaultMock_wf this className w p w' :
  wf w → getDefaultMock this className w = Returns p w' → wf w'.
Proof.
  intros Hwf. destruct (verifierStore w !! this) as [v|] eqn:Hv.
  - destruct (_defaultMockedClass v !! className) as [q|] eqn:Hq.
    + rewrite (getDefaultMock_run_known _ _ _ _ _ Hv Hq). by intros [= _ <-].
    + rewrite (getDefaultMock_run_new _ _ _ _ Hv Hq). intros [= _ <-].
      by apply wf_register_default.
  - unfold getDefaultMock, deref_verifier. rewrite !bind_run, Hv. done.
Qed.

Lemma get_wf className mockPtr w p w' :
  wf w → get className mockPtr w = Returns p w' → wf w'.
Proof.
  intros Hwf. unfold get. rewrite bind_run.
  destruct (instance w) as [v w1| | |] eqn:E; try done.
  apply (getMock_wf _ _ _ _ _ _ (instance_wf _ _ _ Hwf E)).
Qed.

Lemma getDefault_wf className w p w' :
  wf w → getDefault className w = Returns p w' → wf w'.
Proof.
  intros Hwf. unfold getDefault. rewrite bind_run.
  destruct (instance w) as [v w1| | |] eqn:E; try done.
  apply (getDefaultMock_wf _ _ _ _ _ (instance_wf _ _ _ Hwf E)).
Qed.

(** ** Frames: what an update leaves alone *)

Lemma ledger_update_class_other this c key p m' w y :
  y ≠ this →
  classStore (ledger_update this c key p m' w) !! y = classStore w !! y.
Proof. intros Hne. unfold ledger_update. simpl. by apply lookup_insert_ne. Qed.

Lemma ledger_entry_emit lines w y m :
  ledger_entry (emit lines w) y m = ledger_entry w y m.
Proof. reflexivity. Qed.

Lemma ledger_entry_set_invoked l w y m :
  ledger_entry (set_invoked l w) y m = ledger_entry w y m.
Proof. reflexivity. Qed.

(** [verify] depends on the class name and on the entry only. *)
Lemma verify_same y C C' w w' m times :
  wf w → wf w' →
  classStore w !! y = Some C → classStore w' !! y = Some C' →
  _className C' = _className C →
  ledger_entry w' y m = ledger_entry w y m →
  ∃ r lines,
    verify y m times w = Returns r (emit lines w) ∧
    verify y m times w' = Returns r (emit lines w').
Proof.
  intros Hwf Hwf' HC HC' Hn He.
  rewrite (verify_run _ _ _ _ _ Hwf HC), (verify_run _ _ _ _ _ Hwf' HC'), He.
  unfold key_of. rewrite Hn. eauto.
Qed.

(** The count of the entry worked on. *)
Lemma recorded_calls_target w this c methodName p m :
  wf w → classStore w !! this = Some c →
  target w c (key_of c methodName) p m →
  recorded_calls w this methodName = _called m.
Proof.
  intros Hwf Hc Ht. unfold recorded_calls, ledger_entry. rewrite Hc. simpl.
  destruct Ht as [p m Hk Hm|Hk]; rewrite Hk; simpl; [by rewrite Hm|done].
Qed.

Lemma ledger_entry_target w this c methodName p m :
  classStore w !! this = Some c →
  target w c (key_of c methodName) p m →
  ledger_entry w this methodName = None ∧ m = MethodCallVerifier_default
  ∨ ledger_entry w this methodName = Some m ∧
    _verifiers c !! key_of c methodName = Some p.
Proof.
  intros Hc Ht. unfold ledger_entry. rewrite Hc. simpl.
  destruct Ht as [p m Hk Hm|Hk]; rewrite Hk; simpl; [right|left]; eauto.
Qed.

(** ** One call of a history *)

Lemma perform_run this c op w :
  wf w → classStore w !! this = Some c →
  ∃ w' c', perform this op w = Returns () w' ∧ wf w' ∧
    classStore w' !! this = Some c' ∧ _className c' = _className c ∧
    ∀ method, recorded_calls w' this method =
              count_after op method (recorded_calls w this method).
Proof.
  intros Hwf Hc. destruct op as [m info|m h comp|m times]; simpl.
  - destruct (target_exists w this c (key_of c m) Hwf Hc) as (p & e & Ht).
    eexists _, _. split; [by apply methodCall_run|].
    split; [by apply (wf_ledger_update _ _ _ _ e)|].
    split; [unfold ledger_update; simpl; by rewrite lookup_insert_eq|].
    split; [done|]. intros method. destruct (decide (m = method)) as [<-|Hne].
    + unfold recorded_calls at 1. rewrite (ledger_entry_update_same _ _ _ _ _ _ Hc).
      rewrite (recorded_calls_target _ _ _ _ _ _ Hwf Hc Ht). simpl.
      rewrite (target_called _ _ _ _ _ Hwf Ht). unfold vector_size.
      rewrite length_app. simpl. lia.
    + unfold recorded_calls.
      rewrite (ledger_entry_update_other _ _ _ _ _ _ _ _ _ Hwf Hc Ht); [lia|].
      right. congruence.
  - destruct (target_exists w this c (key_of c m) Hwf Hc) as (p & e & Ht).
    eexists _, _. split; [by apply dupeMethod_run|].
    split; [by apply (wf_ledger_update _ _ _ _ e)|].
    split; [unfold ledger_update; simpl; by rewrite lookup_insert_eq|].
    split; [done|]. intros method. destruct (decide (m = method)) as [<-|Hne].
    + unfold recorded_calls at 1.
      by rewrite (ledger_entry_update_same _ _ _ _ _ _ Hc).
    + unfold recorded_calls.
      rewrite (ledger_entry_update_other _ _ _ _ _ _ _ _ _ Hwf Hc Ht); [done|].
      right. congruence.
  - rewrite bind_run, (verify_run _ _ _ _ _ Hwf Hc), ret_run.
    eexists _, c. split; [done|]. split; [by apply wf_emit|]. done.
Qed.

Lemma perform_all_app this ops1 ops2 w w1 :
  perform_all this ops1 w = Returns () w1 →
  perform_all this (ops1 ++ ops2) w = perform_all this ops2 w1.
Proof.
  revert w. induction ops1 as [|op ops1 IH]; intros w; simpl.
  - by intros [= <-].
  - rewrite !bind_run. destruct (perform this op w) as [[] w0| | |]; try done.
    apply IH.
Qed.

Lemma calls_since_reset_snoc method ops op :
  calls_since_reset method (ops ++ [op]) =
  count_after op method (calls_since_reset method ops).
Proof.
  unfold calls_since_reset. rewrite reverse_snoc. by destruct op.
Qed.

Lemma perform_all_run this c ops w :
  wf w → classStore w !! this = Some c →
  (∀ method, recorded_calls w this method = 0) →
  ∃ w' c', perform_all this ops w = Returns () w' ∧ wf w' ∧
    classStore w' !! this = Some c' ∧ _className c' = _className c ∧
    ∀ method, recorded_calls w' this method = calls_since_reset method ops.
Proof.
  intros Hwf Hc H0. induction ops as [|op ops IH] using rev_ind.
  - exists w, c. do 4 (split; [done|]). intros method. by rewrite H0.
  - destruct IH as (w1 & c1 & Hrun & Hwf1 & Hc1 & Hn1 & Hcount).
    destruct (perform_run this c1 op w1 Hwf1 Hc1)
      as (w2 & c2 & Hrun2 & Hwf2 & Hc2 & Hn2 & Hcount2).
    exists w2, c2. rewrite (perform_all_app _ _ _ _ _ Hrun). simpl.
    rewrite bind_run, Hrun2, ret_run.
    do 3 (split; [done|]). split; [by rewrite Hn2|].
    intros method. by rewrite Hcount2, Hcount, calls_since_reset_snoc.
Qed.

(** For a count an [int] can hold, [verify] compares the count asked for
    with the count recorded. *)
Lemma verify_result_exact entry times :
  0 ≤ times ≤ INT_MAX →
  verify_result entry times = bool_decide (times = from_option _called 0 entry).
Proof.
  intros [H0 Hmax]. unfold INT_MAX in Hmax.
  destruct entry as [e|]; simpl; [|done].
  rewrite (bool_decide_eq_false_2 (times ≤ -1)) by lia. simpl.
  unfold to_size_t, SIZE_WIDTH. rewrite Z.mod_small by lia.
  apply bool_decide_ext. split; congruence.
Qed.

(** ** The invariant holds in every world a program reaches *)

Lemma api_run_wf c w r w' : wf w → api_run c w = Returns r w' → wf w'.
Proof.
  intros Hwf. destruct c; simpl; try rewrite bind_run.
  - destruct (instance w) eqn:E; try done. intros [= _ <-].
    by eapply instance_wf.
  - by apply cleanUp_wf.
  - destruct (getMock _ _ _ w) eqn:E; try done. intros [= _ <-].
    by eapply getMock_wf.
  - destruct (getDefaultMock _ _ w) eqn:E; try done. intros [= _ <-].
    by eapply getDefaultMock_wf.
  - destruct (get _ _ w) eqn:E; try done. intros [= _ <-]. by eapply get_wf.
  - destruct (getDefault _ w) eqn:E; try done. intros [= _ <-].
    by eapply getDefault_wf.
  - by apply methodCall_wf.
  - by apply dupeMethod_wf.
  - destruct (verify _ _ _ w) eqn:E; try done. intros [= _ <-].
    by eapply verify_wf.
  - by apply invokeDupedMethod_wf.
Qed.

Lemma api_run_all_wf cs w r w' :
  wf w → api_run_all cs w = Returns r w' → wf w'.
Proof.
  revert w. induction cs as [|c cs IH]; intros w Hwf; simpl.
  - by intros [= _ <-].
  - rewrite bind_run. destruct (api_run c w) as [[] w1| | |] eqn:E; try done.
    apply IH. by eapply api_run_wf.
Qed.

Lemma reachable_wf cs w' :
  api_run_all cs World_initial = Returns () w' → wf w'.
Proof. apply api_run_all_wf, wf_initial. Qed.

Lemma example_calls_return :
  api_run_all example_calls World_initial = Returns () World_example.
Proof. vm_compute. reflexivity. Qed.

Lemma wf_example : wf World_example.
Proof. exact (reachable_wf _ _ example_calls_return). Qed.

(** The first object has recorded one call of [bar] and none of [baz]:
    [verify("bar")], [verify("bar", 1)], [verify("bar", 2)] and
    [verify("baz", 0)] answer true, true, false and true, and the third
    writes its line. *)
Example example_verify :
  (b1 ← verify example_first "bar" (-1);
   b2 ← verify example_first "bar" 1;
   b3 ← verify example_first "bar" 2;
   b4 ← verify example_first "baz" 0;
   mret [b1; b2; b3; b4]) World_example =
  Returns [true; true; false; true]
    (emit [(cout, "Verify error for method Foobar, method has been called 1 and not 2")]
       World_example).
Proof. vm_compute. reflexivity. Qed.

(** ** Handlers *)

Lemma invokeDupedMethod_run fuel this c methodName arg p e w :
  classStore w !! this = Some c →
  _verifiers c !! key_of c methodName = Some p →
  methodStore w !! p = Some e →
  invokeDupedMethod fuel this methodName arg w =
  if has_target (_handler e) then call fuel (_handler e) arg w
  else Returns () w.
Proof.
  intros Hc Hk He. unfold invokeDupedMethod. mstep.
  fold (key_of c methodName). rewrite (map_find_Some _ _ _ Hk). cbv iota.
  do 2 mstep. by destruct (has_target _).
Qed.

(** A handler that calls the handler stored in its own entry, where it is
    stored itself, never comes back. *)
Lemma call_composed_self fuel handler p e data w :
  methodStore w !! p = Some e → _handler e = composed handler p →
  call fuel (composed handler p) data w = OutOfFuel w.
Proof.
  intros He Hh. induction fuel as [|fuel IH]; simpl; [done|].
  rewrite bind_run, (deref_method_run _ _ _ He), bind_run, Hh, IH. done.
Qed.

(** C1. After [dupeMethod(method, S1)] and
    [dupeMethod(method, S2, true)], [invokeDupedMethod(method, arg)] is
    expected to run [S1] and then [S2], once each, on [arg].  The code does
    not: the handler installed by the second call reads the handler of its
    own entry when it runs, which by then is this very handler, so the call
    never returns, whatever the fuel, and neither [S1] nor [S2] has run
    (the world in which the fuel runs out is the world of the call, with
    its record of invoked callables unchanged). *)
Theorem dupeMethod_composed_never_returns this c methodName S1 S2 w :
  wf w → classStore w !! this = Some c → has_target S1 = true →
  ∃ w1 w2,
    dupeMethod this methodName S1 false w = Returns () w1 ∧
    dupeMethod this methodName S2 true w1 = Returns () w2 ∧
    ∀ fuel arg, invokeDupedMethod fuel this methodName arg w2 = OutOfFuel w2.
Proof.
  intros Hwf Hc HS1.
  destruct (target_exists w this c (key_of c methodName) Hwf Hc) as (p & e & Ht).
  set (e1 := duped methodName S1 false p e).
  set (w1 := ledger_update this c (key_of c methodName) p e1 w).
  set (c1 := with_verifiers (<[key_of c methodName := p]> (_verifiers c)) c).
  assert (classStore w1 !! this = Some c1) as Hc1
    by (unfold w1, ledger_update; simpl; apply lookup_insert_eq).
  assert (target w1 c1 (key_of c1 methodName) p e1) as Ht1.
  { apply target_found; [apply lookup_insert_eq|].
    unfold w1, ledger_update. simpl. apply lookup_insert_eq. }
  set (e2 := duped methodName S2 true p e1).
  set (w2 := ledger_update this c1 (key_of c1 methodName) p e2 w1).
  exists w1, w2. split; [by apply dupeMethod_run|].
  split; [by apply dupeMethod_run|]. intros fuel arg.
  assert (_handler e2 = composed S2 p) as Hh by (simpl; by rewrite HS1).
  assert (methodStore w2 !! p = Some e2) as He2
    by (unfold w2, ledger_update; simpl; apply lookup_insert_eq).
  rewrite (invokeDupedMethod_run fuel this
             (with_verifiers (<[key_of c1 methodName := p]> (_verifiers c1)) c1)
             methodName arg p e2).
  - rewrite Hh. simpl has_target. cbv iota.
    by apply (call_composed_self _ _ _ e2).
  - unfold w2, ledger_update. simpl. apply lookup_insert_eq.
  - simpl. apply lookup_insert_eq.
  - done.
Qed.

Lemma dupeMethod_composed_never_returns_witness :
  ∃ w1 w2,
    dupeMethod example_first "bar" (callable 1) false World_example
      = Returns () w1 ∧
    dupeMethod example_first "bar" (callable 2) true w1 = Returns () w2 ∧
    ∀ fuel arg, invokeDupedMethod fuel example_first "bar" arg w2 = OutOfFuel w2.
Proof.
  eapply (dupeMethod_composed_never_returns example_first _ "bar"
            (callable 1) (callable 2) World_example).
  - exact wf_example.
  - vm_compute. reflexivity.
  - reflexivity.
Defined.

(** ** Counting calls *)

(** C2. On a verifier just made, after any history of calls (to
    [methodCall], [dupeMethod] and [verify], on any methods),
    [verify(method, N)] with [0 ≤ N ≤ INT_MAX] returns true exactly when
    [N] is the number of [methodCall]s on [method] since the last
    [dupeMethod] on [method], or since the creation when there is none. *)
Theorem verify_counts_calls_since_reset this className w ops method N :
  wf w → classStore w !! this = Some (MockClassVerifier_new className) →
  0 ≤ N ≤ INT_MAX →
  ∃ w' w'',
    perform_all this ops w = Returns () w' ∧
    verify this method N w' =
      Returns (bool_decide (N = calls_since_reset method ops)) w''.
Proof.
  intros Hwf Hc HN.
  destruct (perform_all_run this _ ops w Hwf Hc)
    as (w' & c' & Hrun & Hwf' & Hc' & _ & Hcount).
  { intros m. unfold recorded_calls, ledger_entry. by rewrite Hc. }
  exists w'. eexists. split; [done|].
  rewrite (verify_run _ _ _ _ _ Hwf' Hc'), (verify_result_exact _ _ HN).
  fold (recorded_calls w' this method). by rewrite Hcount.
Qed.

Lemma verify_counts_calls_since_reset_witness :
  ∃ w' w'',
    perform_all example_second
      [call_methodCall "bar" (payload 1); call_dupeMethod "bar" (callable 1) false;
       call_methodCall "bar" (payload 2); call_methodCall "baz" (payload 3);
       call_methodCall "bar" (payload 4)] World_example = Returns () w' ∧
    verify example_second "bar" 2 w' =
      Returns (bool_decide
                 (2 = calls_since_reset "bar"
                        [call_methodCall "bar" (payload 1);
                         call_dupeMethod "bar" (callable 1) false;
                         call_methodCall "bar" (payload 2);
                         call_methodCall "baz" (payload 3);
                         call_methodCall "bar" (payload 4)])) w''.
Proof.
  apply (verify_counts_calls_since_reset example_second "Foo" World_example).
  - exact wf_example.
  - vm_compute. reflexivity.
  - vm_compute. split; discriminate.
Defined.

(** C3. [dupeMethod(method, handler, false)] leaves the entry of [method]
    with no recorded payload and a call count of 0, whatever was recorded
    before, and [verify(method, 0)] right after returns true. *)
Theorem dupeMethod_resets_history this c methodName handler w :
  wf w → classStore w !! this = Some c →
  ∃ w' e,
    dupeMethod this methodName handler false w = Returns () w' ∧
    ledger_entry w' this methodName = Some e ∧
    _calledData e = [] ∧ _called e = 0 ∧
    verify this methodName 0 w' = Returns true w'.
Proof.
  intros Hwf Hc.
  destruct (target_exists w this c (key_of c methodName) Hwf Hc) as (p & e & Ht).
  eexists _, _. split; [by apply dupeMethod_run|].
  split; [by apply ledger_entry_update_same|]. do 2 (split; [done|]).
  erewrite verify_run.
  - rewrite (ledger_entry_update_same _ _ _ _ _ _ Hc). simpl.
    by rewrite emit_nil.
  - by apply (wf_ledger_update _ _ _ _ e).
  - unfold ledger_update. simpl. apply lookup_insert_eq.
Qed.

Lemma dupeMethod_resets_history_witness :
  ∃ w' e,
    dupeMethod example_first "bar" (callable 1) false World_example
      = Returns () w' ∧
    ledger_entry w' example_first "bar" = Some e ∧
    _calledData e = [] ∧ _called e = 0 ∧
    verify example_first "bar" 0 w' = Returns true w'.
Proof.
  eapply (dupeMethod_resets_history example_first _ "bar" (callable 1)
            World_example).
  - exact wf_example.
  - vm_compute. reflexivity.
Defined.

(** ** Diagnostics *)

(** C4, as the code has it.  [verify] returns (it neither throws nor
    fails otherwise), and when it returns false for a method that has an
    entry, or for a method without entry and [times > 0], it writes one
    line to [std::cout]: the line names the key, the count asked for and
    the count recorded, or says that the method was never called. *)
Theorem verify_writes_diagnostic this c methodName times w :
  wf w → classStore w !! this = Some c →
  ∃ r lines,
    verify this methodName times w = Returns r (emit lines w) ∧
    (r = false →
     match ledger_entry w this methodName with
     | Some e =>
         lines = [(cout, called_message (key_of c methodName) (_called e) times)]
     | None =>
         times > 0 →
         lines = [(cout, never_called_message (key_of c methodName) times)]
     end).
Proof.
  intros Hwf Hc. eexists _, _. split; [by apply verify_run|].
  destruct (ledger_entry w this methodName) as [e|]; simpl.
  - by intros ->.
  - intros _ Ht. by rewrite bool_decide_eq_true_2.
Qed.

Lemma verify_writes_diagnostic_witness :
  ∃ r lines,
    verify example_first "bar" 2 World_example
      = Returns r (emit lines World_example) ∧
    (r = false →
     match ledger_entry World_example example_first "bar" with
     | Some e =>
         lines = [(cout, called_message
                           (key_of {| _className := "Foo";
                                      _verifiers := {[ "Foobar" := 1%positive ]} |}
                              "bar") (_called e) 2)]
     | None =>
         2 > 0 →
         lines = [(cout, never_called_message
                           (key_of {| _className := "Foo";
                                      _verifiers := {[ "Foobar" := 1%positive ]} |}
                              "bar") 2)]
     end).
Proof.
  apply (verify_writes_diagnostic example_first _ "bar" 2 World_example).
  - exact wf_example.
  - vm_compute. reflexivity.
Defined.

(** C4, as stated, fails twice on a verifier that has recorded nothing for
    [baz]: [verify("baz")], with the default [times = -1], returns false
    and writes nothing at all; [verify("baz", 1)] returns false and writes
    its line to [std::cout], not to [std::cerr]. *)
Lemma verify_writes_diagnostic_counterexample :
  verify example_first "baz" (-1) World_example = Returns false World_example ∧
  verify example_first "baz" 1 World_example =
    Returns false
      (emit [(cout, "Verify error for method Foobaz, method never have been called while we expected 1 calls")]
         World_example).
Proof. split; vm_compute; reflexivity. Qed.

(** C5. For a method whose key has no entry, [verify(method, times)]
    returns false for every [times > 0] and true for [times = 0]. *)
Theorem verify_unknown_method this c methodName w :
  classStore w !! this = Some c →
  _verifiers c !! key_of c methodName = None →
  (∀ times, times > 0 →
     ∃ w', verify this methodName times w = Returns false w') ∧
  verify this methodName 0 w = Returns true w.
Proof.
  intros Hc Hk. unfold verify. split.
  - intros times Ht. mstep. fold (key_of c methodName).
    rewrite (map_find_None _ _ Hk). cbn [negb]. cbv iota.
    rewrite bind_run, bool_decide_eq_true_2 by done.
    rewrite bool_decide_eq_false_2 by lia. eauto.
  - mstep. fold (key_of c methodName).
    by rewrite (map_find_None _ _ Hk).
Qed.

Lemma verify_unknown_method_witness :
  (∀ times, times > 0 →
     ∃ w', verify example_first "baz" times World_example = Returns false w') ∧
  verify example_first "baz" 0 World_example = Returns true World_example.
Proof.
  eapply (verify_unknown_method example_first _ "baz" World_example).
  - vm_compute. reflexivity.
  - vm_compute. reflexivity.
Defined.

(** C8. [verify(method, -1)], the default, returns true exactly when the
    recorded call count of [method] is greater than 0. *)
Theorem verify_default_times this c methodName w :
  wf w → classStore w !! this = Some c →
  ∃ w', verify this methodName (-1) w =
        Returns (bool_decide (recorded_calls w this methodName > 0)) w'.
Proof.
  intros Hwf Hc. eexists. rewrite (verify_run _ _ _ _ _ Hwf Hc).
  f_equal. unfold recorded_calls.
  destruct (ledger_entry w this methodName) as [e|]; simpl; [|done].
  destruct (bool_decide (_called e > 0)) eqn:E; [done|]. simpl.
  apply bool_decide_eq_false_2. apply bool_decide_eq_false_1 in E.
  unfold to_size_t, SIZE_WIDTH. change (-1 mod 2 ^ 64) with (2 ^ 64 - 1). lia.
Qed.

Lemma verify_default_times_witness :
  ∃ w', verify example_first "bar" (-1) World_example =
        Returns (bool_decide (recorded_calls World_example example_first "bar" > 0)) w'.
Proof.
  eapply (verify_default_times example_first _ "bar" World_example).
  - exact wf_example.
  - vm_compute. reflexivity.
Defined.

(** ** Stubs *)

(** C6. After [dupeMethod(method, h1)], one [invokeDupedMethod(method, arg)]
    calls [h1] once, on [arg], and changes nothing else: the stores are
    the same, so every method has the entry it had, and [verify(method, 0)]
    still returns true.  (The scenario of the claim is [method = "bar"].) *)
Theorem invokeDupedMethod_runs_stub_once this c methodName h1 arg w :
  wf w → classStore w !! this = Some c →
  ∃ w1,
    dupeMethod this methodName (callable h1) false w = Returns () w1 ∧
    ∀ fuel,
      let w2 := set_invoked (invoked w1 ++ [(h1, arg)]) w1 in
      invokeDupedMethod fuel this methodName arg w1 = Returns () w2 ∧
      (∀ m, ledger_entry w2 this m = ledger_entry w1 this m) ∧
      verify this methodName 0 w2 = Returns true w2.
Proof.
  intros Hwf Hc.
  destruct (target_exists w this c (key_of c methodName) Hwf Hc) as (p & e & Ht).
  set (e1 := duped methodName (callable h1) false p e).
  set (w1 := ledger_update this c (key_of c methodName) p e1 w).
  set (c1 := with_verifiers (<[key_of c methodName := p]> (_verifiers c)) c).
  assert (classStore w1 !! this = Some c1) as Hc1
    by (unfold w1, ledger_update; simpl; apply lookup_insert_eq).
  assert (wf w1) as Hwf1 by by apply (wf_ledger_update _ _ _ _ e).
  exists w1. split; [by apply dupeMethod_run|]. intros fuel w2.
  split; [|split; [done|]].
  - rewrite (invokeDupedMethod_run fuel this c1 methodName arg p e1); try done.
    + by destruct fuel.
    + apply lookup_insert_eq.
    + unfold w1, ledger_update. simpl. apply lookup_insert_eq.
  - rewrite (verify_run this methodName 0 w2 c1); [|by apply wf_set_invoked|done].
    unfold w2. rewrite ledger_entry_set_invoked.
    unfold w1. rewrite (ledger_entry_update_same _ _ _ _ _ _ Hc). simpl.
    by rewrite emit_nil.
Qed.

Lemma invokeDupedMethod_runs_stub_once_witness :
  ∃ w1,
    dupeMethod example_first "bar" (callable 1) false World_example
      = Returns () w1 ∧
    ∀ fuel,
      let w2 := set_invoked (invoked w1 ++ [(1%nat, 4096)]) w1 in
      invokeDupedMethod fuel example_first "bar" 4096 w1 = Returns () w2 ∧
      (∀ m, ledger_entry w2 example_first m = ledger_entry w1 example_first m) ∧
      verify example_first "bar" 0 w2 = Returns true w2.
Proof.
  eapply (invokeDupedMethod_runs_stub_once example_first _ "bar" 1%nat 4096
            World_example).
  - exact wf_example.
  - vm_compute. reflexivity.
Defined.

(** ** The registry *)

(** C7. In any world, whatever was registered, [cleanUp()] followed by
    [instance()] gives a registry with two empty maps, in which
    [isMockRegistered] returns false for every identity. *)
Theorem cleanUp_then_instance_is_fresh w :
  ∃ v w',
    (cleanUp;; instance) w = Returns v w' ∧
    verifierStore w' !! v = Some MockVerifier_new ∧
    ∀ identity, isMockRegistered v identity w' = Returns false w'.
Proof.
  rewrite bind_run, cleanUp_run.
  set (w0 := match inst w with Some v => _ | None => w end).
  assert (inst w0 = None) as Hi.
  { unfold w0. destruct (inst w) eqn:E; [done|exact E]. }
  rewrite (instance_run_none _ Hi). eexists _, _. split; [done|].
  assert (∀ x (s : gmap loc MockVerifier),
            verifierStore (set_inst (Some x)
              (set_verifierStore (<[x := MockVerifier_new]> s) w0)) !! x
            = Some MockVerifier_new) as Hv
    by (intros; simpl; apply lookup_insert_eq).
  split; [apply Hv|]. intros identity.
  by rewrite (isMockRegistered_run _ _ _ _ (Hv _ _)).
Qed.

(** ** Independent ledgers *)

Lemma perform_elsewhere x c op w y :
  wf w → classStore w !! x = Some c → y ≠ x →
  ∃ w', perform x op w = Returns () w' ∧ wf w' ∧
    classStore w' !! y = classStore w !! y ∧ same_ledger y w w'.
Proof.
  intros Hwf Hc Hne. destruct op as [m info|m h comp|m times]; simpl.
  - destruct (target_exists w x c (key_of c m) Hwf Hc) as (p & e & Ht).
    eexists. split; [by apply methodCall_run|].
    split; [by apply (wf_ledger_update _ _ _ _ e)|].
    split; [by apply ledger_update_class_other|]. intros m'.
    apply (ledger_entry_update_other _ _ _ _ e); auto.
  - destruct (target_exists w x c (key_of c m) Hwf Hc) as (p & e & Ht).
    eexists. split; [by apply dupeMethod_run|].
    split; [by apply (wf_ledger_update _ _ _ _ e)|].
    split; [by apply ledger_update_class_other|]. intros m'.
    apply (ledger_entry_update_other _ _ _ _ e); auto.
  - rewrite bind_run, (verify_run _ _ _ _ _ Hwf Hc), ret_run.
    eexists. split; [done|]. split; [by apply wf_emit|]. done.
Qed.

(** The entry worked on is the same in two worlds that hold the same
    verifier with the same entries, up to the place of an entry made
    anew. *)
Lemma target_same y C m w w' p e :
  wf w' → classStore w' !! y = Some C → same_ledger y w w' →
  classStore w !! y = Some C →
  target w C (key_of C m) p e →
  ∃ p', target w' C (key_of C m) p' e ∧
        (e = MethodCallVerifier_default ∨ p' = p).
Proof.
  intros Hwf' HC' Hsame HC Ht. pose proof (Hsame m) as Hm.
  unfold ledger_entry in Hm. rewrite HC, HC' in Hm. simpl in Hm.
  destruct Ht as [p e Hk He|Hk].
  - rewrite Hk in Hm. simpl in Hm. rewrite He in Hm.
    exists p. split; [by apply target_found|by right].
  - eexists. split; [by apply target_made|by left].
Qed.

Lemma update_same_ledger y C m w w' p p' e' :
  wf w → wf w' → classStore w !! y = Some C → classStore w' !! y = Some C →
  same_ledger y w w' →
  ∀ e, target w C (key_of C m) p e → target w' C (key_of C m) p' e →
  same_ledger y (ledger_update y C (key_of C m) p e' w)
    (ledger_update y C (key_of C m) p' e' w').
Proof.
  intros Hwf Hwf' HC HC' Hsame e Ht Ht' m'.
  destruct (decide (m' = m)) as [->|Hne].
  - by rewrite !ledger_entry_update_same.
  - rewrite (ledger_entry_update_other _ _ _ _ e _ _ _ _ Hwf HC Ht) by auto.
    rewrite (ledger_entry_update_other _ _ _ _ e _ _ _ _ Hwf' HC' Ht') by auto.
    apply Hsame.
Qed.

Lemma same_ledger_undisturbed y C w w' :
  wf w → wf w' → classStore w !! y = Some C → classStore w' !! y = Some C →
  same_ledger y w w' → undisturbed y w w'.
Proof.
  intros Hwf Hwf' HC HC' Hsame. split; [done|]. split; [|split].
  - intros m times. by apply (verify_same y C C).
  - intros m info.
    destruct (target_exists w y C (key_of C m) Hwf HC) as (p & e & Ht).
    destruct (target_same _ _ _ _ _ _ _ Hwf' HC' Hsame HC Ht) as (p' & Ht' & _).
    eexists _, _. split; [by apply methodCall_run|].
    split; [by apply methodCall_run|]. by apply (update_same_ledger _ _ _ _ _ _ _ _ Hwf Hwf' HC HC' Hsame e).
  - intros m h comp.
    destruct (target_exists w y C (key_of C m) Hwf HC) as (p & e & Ht).
    destruct (target_same _ _ _ _ _ _ _ Hwf' HC' Hsame HC Ht) as (p' & Ht' & Hp).
    eexists _, _. split; [by apply dupeMethod_run|].
    split; [by apply dupeMethod_run|].
    assert (duped m h comp p' e = duped m h comp p e) as ->.
    { destruct Hp as [->| ->]; [|done]. unfold duped. simpl.
      by rewrite andb_false_r. }
    by apply (update_same_ledger _ _ _ _ _ _ _ _ Hwf Hwf' HC HC' Hsame e).
Qed.

Lemma perform_undisturbed x c op w y C :
  wf w → classStore w !! x = Some c → classStore w !! y = Some C → y ≠ x →
  ∃ w', perform x op w = Returns () w' ∧ undisturbed y w w'.
Proof.
  intros Hwf Hc HC Hne.
  destruct (perform_elsewhere x c op w y Hwf Hc Hne)
    as (w' & Hrun & Hwf' & Hy & Hsame).
  exists w'. split; [done|].
  apply (same_ledger_undisturbed y C); try done. by rewrite Hy.
Qed.

(** C9. For two distinct identities [A] and [B] registered in the
    registry, a [methodCall] on the verifier of [A] leaves every entry of
    the verifier of [B] as it was, and every [verify] on the verifier of
    [B] gives the same answer, and writes the same lines, as before. *)
Theorem methodCall_leaves_other_instance v V A B a b methodName callingInfo w :
  wf w → verifierStore w !! v = Some V →
  _mockedClass V !! A = Some a → _mockedClass V !! B = Some b → A ≠ B →
  ∃ w',
    methodCall a methodName callingInfo w = Returns () w' ∧
    (∀ m, ledger_entry w' b m = ledger_entry w b m) ∧
    (∀ m times, ∃ r lines,
       verify b m times w = Returns r (emit lines w) ∧
       verify b m times w' = Returns r (emit lines w')).
Proof.
  intros Hwf HV HA HB Hne.
  destruct (wf_mocked w Hwf _ _ _ _ HV HA) as [ca Hca].
  destruct (wf_mocked w Hwf _ _ _ _ HV HB) as [cb Hcb].
  assert (b ≠ a) as Hba.
  { intros ->. by apply Hne, (wf_mocked_inj w Hwf _ _ _ _ _ HV HA HB). }
  destruct (perform_elsewhere a ca (call_methodCall methodName callingInfo)
              w b Hwf Hca Hba) as (w' & Hrun & Hwf' & Hb & Hsame).
  exists w'. split; [done|]. split; [done|]. intros m times.
  apply (verify_same b cb cb); try done. by rewrite Hb.
Qed.

Lemma methodCall_leaves_other_instance_witness :
  ∃ w',
    methodCall example_first "bar" (payload 8) World_example = Returns () w' ∧
    (∀ m, ledger_entry w' example_second m
          = ledger_entry World_example example_second m) ∧
    (∀ m times, ∃ r lines,
       verify example_second m times World_example
         = Returns r (emit lines World_example) ∧
       verify example_second m times w' = Returns r (emit lines w')).
Proof.
  eapply (methodCall_leaves_other_instance example_registry _ 100 200
            example_first example_second "bar" (payload 8) World_example).
  - exact wf_example.
  - vm_compute. reflexivity.
  - vm_compute. reflexivity.
  - vm_compute. reflexivity.
  - discriminate.
Defined.

(** C10. For a class name and a pointer registered in the registry, the
    default verifier (the one [getDefaultMock] returns) and the instance
    verifier (the one [getMock] returns) are two objects, and a
    [methodCall], [dupeMethod] or [verify] on either leaves the other
    undisturbed, whatever the class names of the two verifiers. *)
Theorem default_and_instance_mocks_disjoint v V className p d b w :
  wf w → verifierStore w !! v = Some V →
  _defaultMockedClass V !! className = Some d →
  _mockedClass V !! p = Some b →
  getDefaultMock v className w = Returns d w ∧
  getMock className v p w = Returns b w ∧
  d ≠ b ∧
  (∀ op, ∃ w', perform d op w = Returns () w' ∧ undisturbed b w w') ∧
  (∀ op, ∃ w', perform b op w = Returns () w' ∧ undisturbed d w w').
Proof.
  intros Hwf HV Hd Hb.
  destruct (wf_default w Hwf _ _ _ _ HV Hd) as [cd Hcd].
  destruct (wf_mocked w Hwf _ _ _ _ HV Hb) as [cb Hcb].
  assert (b ≠ d) as Hne by by eapply (wf_mocked_default w Hwf).
  split; [by eapply getDefaultMock_run_known|].
  split; [by eapply getMock_run_known|].
  split; [done|]. split; intros op.
  - by apply (perform_undisturbed d cd op w b cb).
  - by apply (perform_undisturbed b cb op w d cd).
Qed.

Lemma default_and_instance_mocks_disjoint_witness :
  getDefaultMock example_registry "Foo" World_example
    = Returns example_default World_example ∧
  getMock "Foo" example_registry 100 World_example
    = Returns example_first World_example ∧
  example_default ≠ example_first ∧
  (∀ op, ∃ w', perform example_default op World_example = Returns () w' ∧
               undisturbed example_first World_example w') ∧
  (∀ op, ∃ w', perform example_first op World_example = Returns () w' ∧
               undisturbed example_default World_example w').
Proof.
  eapply (default_and_instance_mocks_disjoint example_registry _ "Foo" 100
            example_default example_first World_example).
  - exact wf_example.
  - vm_compute. reflexivity.
  - vm_compute. reflexivity.
  - vm_compute. reflexivity.
Defined.

(** * Further properties of the header *)

(** ** [invokeDupedMethod] *)

Lemma ledger_entry_Some w this c methodName e :
  classStore w !! this = Some c → ledger_entry w this methodName = Some e →
  ∃ p, _verifiers c !! key_of c methodName = Some p ∧ methodStore w !! p = Some e.
Proof.
  intros Hc. unfold ledger_entry. rewrite Hc. simpl.
  destruct (_verifiers c !! key_of c methodName) as [p|]; [|done]. eauto.
Qed.

Lemma invokeDupedMethod_run_none fuel this c methodName arg w :
  classStore w !! this = Some c →
  _verifiers c !! key_of c methodName = None →
  invokeDupedMethod fuel this methodName arg w = Returns () w.
Proof.
  intros Hc Hk. unfold invokeDupedMethod. mstep.
  fold (key_of c methodName). by rewrite (map_find_None _ _ Hk).
Qed.

(** X1. A duped method can be called before any stub is installed: for a
    method without entry, or with an entry that holds no stub (one made by
    [methodCall] alone), [invokeDupedMethod] returns and changes nothing. *)
Theorem invokeDupedMethod_without_stub fuel this c methodName arg w :
  wf w → classStore w !! this = Some c →
  installed_handler w this methodName = empty_function →
  invokeDupedMethod fuel this methodName arg w = Returns () w.
Proof.
  intros Hwf Hc Hh. unfold installed_handler in Hh.
  destruct (ledger_entry w this methodName) as [e|] eqn:He.
  - destruct (ledger_entry_Some _ _ _ _ _ Hc He) as (p & Hk & Hp).
    rewrite (invokeDupedMethod_run fuel this c methodName arg p e w Hc Hk Hp).
    simpl in Hh. by rewrite Hh.
  - apply (invokeDupedMethod_run_none _ _ c); [done|].
    by apply (ledger_entry_None w this c methodName Hwf Hc).
Qed.

Lemma invokeDupedMethod_without_stub_witness :
  invokeDupedMethod 5 example_first "bar" 4096 World_example
    = Returns () World_example ∧
  invokeDupedMethod 5 example_first "baz" 4096 World_example
    = Returns () World_example.
Proof.
  split.
  - eapply (invokeDupedMethod_without_stub 5 example_first _ "bar" 4096
              World_example).
    + exact wf_example.
    + vm_compute. reflexivity.
    + vm_compute. reflexivity.
  - eapply (invokeDupedMethod_without_stub 5 example_first _ "baz" 4096
              World_example).
    + exact wf_example.
    + vm_compute. reflexivity.
    + vm_compute. reflexivity.
Defined.




(** ** [methodCall] and [dupeMethod] *)

Lemma target_readings w this c methodName p e :
  wf w → classStore w !! this = Some c →
  target w c (key_of c methodName) p e →
  recorded_payloads w this methodName = _calledData e ∧
  recorded_calls w this methodName = _called e ∧
  installed_handler w this methodName = _handler e.
Proof.
  intros Hwf Hc Ht.
  unfold recorded_payloads, recorded_calls, installed_handler.
  by destruct (ledger_entry_target _ _ _ _ _ _ Hc Ht) as [[-> ->]|[-> _]].
Qed.

(** X3. [methodCall] puts the payload at the end of the recorded payloads
    of the method, adds 1 to its count, sets the name of the entry and
    keeps the stub that is installed. *)
Theorem methodCall_appends this c methodName callingInfo w :
  wf w → classStore w !! this = Some c →
  ∃ w' e',
    methodCall this methodName callingInfo w = Returns () w' ∧
    ledger_entry w' this methodName = Some e' ∧
    _methodName e' = methodName ∧
    _calledData e' = recorded_payloads w this methodName ++ [callingInfo] ∧
    _called e' = recorded_calls w this methodName + 1 ∧
    _handler e' = installed_handler w this methodName.
Proof.
  intros Hwf Hc.
  destruct (target_exists w this c (key_of c methodName) Hwf Hc) as (p & e & Ht).
  destruct (target_readings _ _ _ _ _ _ Hwf Hc Ht) as (-> & -> & ->).
  eexists _, _. split; [by apply methodCall_run|].
  split; [by apply ledger_entry_update_same|]. simpl.
  do 2 (split; [done|]). split; [|done].
  rewrite (target_called _ _ _ _ _ Hwf Ht). unfold vector_size.
  rewrite length_app. simpl. lia.
Qed.

Lemma methodCall_appends_witness :
  ∃ w' e',
    methodCall example_first "bar" (payload 8) World_example = Returns () w' ∧
    ledger_entry w' example_first "bar" = Some e' ∧
    _methodName e' = "bar" ∧
    _calledData e' =
      recorded_payloads World_example example_first "bar" ++ [payload 8] ∧
    _called e' = recorded_calls World_example example_first "bar" + 1 ∧
    _handler e' = installed_handler World_example example_first "bar".
Proof.
  eapply (methodCall_appends example_first _ "bar" (payload 8) World_example).
  - exact wf_example.
  - vm_compute. reflexivity.
Defined.

Lemma perform_payloads this c op w :
  wf w → classStore w !! this = Some c →
  ∃ w' c', perform this op w = Returns () w' ∧ wf w' ∧
    classStore w' !! this = Some c' ∧
    ∀ method, recorded_payloads w' this method =
              payloads_after op method (recorded_payloads w this method).
Proof.
  intros Hwf Hc. destruct op as [m info|m h comp|m times]; simpl.
  - destruct (target_exists w this c (key_of c m) Hwf Hc) as (p & e & Ht).
    eexists _, _. split; [by apply methodCall_run|].
    split; [by apply (wf_ledger_update _ _ _ _ e)|].
    split; [unfold ledger_update; simpl; by rewrite lookup_insert_eq|].
    intros method. destruct (decide (m = method)) as [<-|Hne].
    + unfold recorded_payloads at 1.
      rewrite (ledger_entry_update_same _ _ _ _ _ _ Hc).
      by destruct (target_readings _ _ _ _ _ _ Hwf Hc Ht) as (-> & _).
    + unfold recorded_payloads.
      rewrite (ledger_entry_update_other _ _ _ _ _ _ _ _ _ Hwf Hc Ht);
        [by rewrite app_nil_r|].
      right. congruence.
  - destruct (target_exists w this c (key_of c m) Hwf Hc) as (p & e & Ht).
    eexists _, _. split; [by apply dupeMethod_run|].
    split; [by apply (wf_ledger_update _ _ _ _ e)|].
    split; [unfold ledger_update; simpl; by rewrite lookup_insert_eq|].
    intros method. destruct (decide (m = method)) as [<-|Hne].
    + unfold recorded_payloads at 1.
      by rewrite (ledger_entry_update_same _ _ _ _ _ _ Hc).
    + unfold recorded_payloads.
      rewrite (ledger_entry_update_other _ _ _ _ _ _ _ _ _ Hwf Hc Ht); [done|].
      right. congruence.
  - rewrite bind_run, (verify_run _ _ _ _ _ Hwf Hc), ret_run.
    eexists _, c. split; [done|]. split; [by apply wf_emit|]. done.
Qed.

Lemma payloads_since_reset_snoc method ops op :
  payloads_since_reset method (ops ++ [op]) =
  payloads_after op method (payloads_since_reset method ops).
Proof.
  unfold payloads_since_reset. rewrite reverse_snoc. by destruct op.
Qed.

(** X4. The recorded payloads are in call order: on a verifier just made,
    after any history of calls, the payloads recorded for [method] are the
    payloads of the [methodCall]s on [method] since the last [dupeMethod]
    on it, oldest first. *)
Theorem payloads_in_call_order this className w ops method :
  wf w → classStore w !! this = Some (MockClassVerifier_new className) →
  ∃ w',
    perform_all this ops w = Returns () w' ∧
    recorded_payloads w' this method = payloads_since_reset method ops.
Proof.
  intros Hwf Hc.
  assert (∃ w' c', perform_all this ops w = Returns () w' ∧ wf w' ∧
            classStore w' !! this = Some c' ∧
            ∀ m, recorded_payloads w' this m = payloads_since_reset m ops)
    as (w' & c' & Hrun & _ & _ & Hp).
  { induction ops as [|op ops IH] using rev_ind.
    - eexists w, _. do 3 (split; [done|]). intros m.
      unfold recorded_payloads, ledger_entry. by rewrite Hc.
    - destruct IH as (w1 & c1 & Hrun & Hwf1 & Hc1 & Hp1).
      destruct (perform_payloads this c1 op w1 Hwf1 Hc1)
        as (w2 & c2 & Hrun2 & Hwf2 & Hc2 & Hp2).
      exists w2, c2. rewrite (perform_all_app _ _ _ _ _ Hrun). simpl.
      rewrite bind_run, Hrun2, ret_run. do 3 (split; [done|]).
      intros m. by rewrite Hp2, Hp1, payloads_since_reset_snoc. }
  eauto.
Qed.

Lemma payloads_in_call_order_witness :
  ∃ w',
    perform_all example_second
      [call_methodCall "bar" (payload 1); call_dupeMethod "bar" (callable 1) true;
       call_methodCall "bar" (payload 2); call_methodCall "baz" (payload 3);
       call_methodCall "bar" (payload 4)] World_example = Returns () w' ∧
    recorded_payloads w' example_second "bar" =
      payloads_since_reset "bar"
        [call_methodCall "bar" (payload 1); call_dupeMethod "bar" (callable 1) true;
         call_methodCall "bar" (payload 2); call_methodCall "baz" (payload 3);
         call_methodCall "bar" (payload 4)].
Proof.
  apply (payloads_in_call_order example_second "Foo" World_example).
  - exact wf_example.
  - vm_compute. reflexivity.
Defined.

Lemma dupeMethod_then_invoke this c methodName handler isComposed w :
  wf w → classStore w !! this = Some c →
  ∃ w1 p e,
    target w c (key_of c methodName) p e ∧
    dupeMethod this methodName handler isComposed w = Returns () w1 ∧
    wf w1 ∧
    ledger_entry w1 this methodName
      = Some (duped methodName handler isComposed p e) ∧
    ∀ fuel arg,
      invokeDupedMethod fuel this methodName arg w1 =
      if has_target (_handler (duped methodName handler isComposed p e))
      then call fuel (_handler (duped methodName handler isComposed p e)) arg w1
      else Returns () w1.
Proof.
  intros Hwf Hc.
  destruct (target_exists w this c (key_of c methodName) Hwf Hc) as (p & e & Ht).
  eexists _, p, e. split; [done|]. split; [by apply dupeMethod_run|].
  split; [by apply (wf_ledger_update _ _ _ _ e)|].
  split; [by apply ledger_entry_update_same|]. intros fuel arg.
  apply (invokeDupedMethod_run fuel this
           (with_verifiers (<[key_of c methodName := p]> (_verifiers c)) c)
           methodName arg p).
  - unfold ledger_update. simpl. apply lookup_insert_eq.
  - apply lookup_insert_eq.
  - unfold ledger_update. simpl. apply lookup_insert_eq.
Qed.

(** X5. With [isComposed = true] and no stub installed for the method (no
    entry, or an entry without stub), [dupeMethod] installs the handler as
    it is: [invokeDupedMethod] then calls it once, on the argument
    given. *)
Theorem dupeMethod_composed_without_stub this c methodName h arg w :
  wf w → classStore w !! this = Some c →
  installed_handler w this methodName = empty_function →
  ∃ w1,
    dupeMethod this methodName (callable h) true w = Returns () w1 ∧
    ∀ fuel,
      invokeDupedMethod fuel this methodName arg w1 =
      Returns () (set_invoked (invoked w1 ++ [(h, arg)]) w1).
Proof.
  intros Hwf Hc Hh.
  destruct (dupeMethod_then_invoke this c methodName (callable h) true w Hwf Hc)
    as (w1 & p & e & Ht & Hrun & _ & _ & Hinv).
  destruct (target_readings _ _ _ _ _ _ Hwf Hc Ht) as (_ & _ & He).
  rewrite Hh in He. exists w1. split; [done|]. intros fuel.
  rewrite Hinv. simpl. rewrite <- He. simpl. by destruct fuel.
Qed.

Lemma dupeMethod_composed_without_stub_witness :
  ∃ w1,
    dupeMethod example_first "bar" (callable 1) true World_example
      = Returns () w1 ∧
    ∀ fuel,
      invokeDupedMethod fuel example_first "bar" 4096 w1 =
      Returns () (set_invoked (invoked w1 ++ [(1%nat, 4096)]) w1).
Proof.
  eapply (dupeMethod_composed_without_stub example_first _ "bar" 1%nat 4096
            World_example).
  - exact wf_example.
  - vm_compute. reflexivity.
  - vm_compute. reflexivity.
Defined.

(** X6. [dupeMethod] with an empty [std::function] and
    [isComposed = false] takes the stub away: [invokeDupedMethod] then
    returns and changes nothing, whatever stub was installed before. *)
Theorem dupeMethod_empty_removes_stub this c methodName w :
  wf w → classStore w !! this = Some c →
  ∃ w1,
    dupeMethod this methodName empty_function false w = Returns () w1 ∧
    installed_handler w1 this methodName = empty_function ∧
    ∀ fuel arg, invokeDupedMethod fuel this methodName arg w1 = Returns () w1.
Proof.
  intros Hwf Hc.
  destruct (dupeMethod_then_invoke this c methodName empty_function false w Hwf Hc)
    as (w1 & p & e & Ht & Hrun & _ & He1 & Hinv).
  exists w1. split; [done|]. split.
  - unfold installed_handler. by rewrite He1.
  - intros fuel arg. by rewrite Hinv.
Qed.

Lemma dupeMethod_empty_removes_stub_witness :
  ∃ w1,
    dupeMethod example_first "bar" empty_function false World_example
      = Returns () w1 ∧
    installed_handler w1 example_first "bar" = empty_function ∧
    ∀ fuel arg, invokeDupedMethod fuel example_first "bar" arg w1 = Returns () w1.
Proof.
  eapply (dupeMethod_empty_removes_stub example_first _ "bar" World_example).
  - exact wf_example.
  - vm_compute. reflexivity.
Defined.

(** X7. [dupeMethod] wipes the history of the method whatever
    [isComposed]: composing a stub also leaves no recorded payload and a
    count of 0, so that [verify(method)] right after returns false and
    reports 0 calls. *)
Theorem dupeMethod_resets_when_composed this c methodName handler isComposed w :
  wf w → classStore w !! this = Some c →
  ∃ w',
    dupeMethod this methodName handler isComposed w = Returns () w' ∧
    recorded_payloads w' this methodName = [] ∧
    recorded_calls w' this methodName = 0 ∧
    verify this methodName (-1) w' =
      Returns false
        (emit [(cout, called_message (key_of c methodName) 0 (-1))] w').
Proof.
  intros Hwf Hc.
  destruct (dupeMethod_then_invoke this c methodName handler isComposed w Hwf Hc)
    as (w1 & p & e & Ht & Hrun & Hwf1 & He1 & _).
  exists w1. split; [done|].
  unfold recorded_payloads, recorded_calls. rewrite He1.
  do 2 (split; [done|]).
  assert (classStore w1 !! this
          = Some (with_verifiers (<[key_of c methodName := p]> (_verifiers c)) c))
    as Hc1.
  { rewrite (dupeMethod_run _ _ _ _ _ _ _ _ Hc Ht) in Hrun.
    injection Hrun as <-. unfold ledger_update. simpl. apply lookup_insert_eq. }
  by rewrite (verify_run _ _ _ _ _ Hwf1 Hc1), He1.
Qed.

Lemma dupeMethod_resets_when_composed_witness :
  ∃ w',
    dupeMethod example_first "bar" (callable 1) true World_example
      = Returns () w' ∧
    recorded_payloads w' example_first "bar" = [] ∧
    recorded_calls w' example_first "bar" = 0 ∧
    verify example_first "bar" (-1) w' =
      Returns false
        (emit [(cout, called_message
                        (key_of {| _className := "Foo";
                                   _verifiers := {[ "Foobar" := 1%positive ]} |}
                           "bar") 0 (-1))] w').
Proof.
  apply (dupeMethod_resets_when_composed example_first _ "bar" (callable 1) true
           World_example).
  - exact wf_example.
  - vm_compute. reflexivity.
Defined.

(** ** Methods of one verifier *)

Lemma update_other_method this c methodName p e e' w other :
  wf w → classStore w !! this = Some c →
  target w c (key_of c methodName) p e → other ≠ methodName →
  let w' := ledger_update this c (key_of c methodName) p e' w in
  _called e' = vector_size (_calledData e') →
  ledger_entry w' this other = ledger_entry w this other ∧
  ∀ times, ∃ r lines,
    verify this other times w = Returns r (emit lines w) ∧
    verify this other times w' = Returns r (emit lines w').
Proof.
  intros Hwf Hc Ht Hne w' He'.
  assert (ledger_entry w' this other = ledger_entry w this other) as Hsame
    by (apply (ledger_entry_update_other _ _ _ _ e); auto).
  split; [done|]. intros times.
  apply (verify_same this c
           (with_verifiers (<[key_of c methodName := p]> (_verifiers c)) c));
    try done.
  - by apply (wf_ledger_update _ _ _ _ e).
  - unfold w', ledger_update. simpl. apply lookup_insert_eq.
Qed.

(** X8. The methods of one verifier have separate entries: a [methodCall]
    or a [dupeMethod] on one method leaves the entry of every other method
    as it was, and every [verify] on another method gives the same answer
    and writes the same lines as before. *)
Theorem other_methods_undisturbed this c methodName other w :
  wf w → classStore w !! this = Some c → other ≠ methodName →
  (∀ callingInfo, ∃ w',
     methodCall this methodName callingInfo w = Returns () w' ∧
     ledger_entry w' this other = ledger_entry w this other ∧
     ∀ times, ∃ r lines,
       verify this other times w = Returns r (emit lines w) ∧
       verify this other times w' = Returns r (emit lines w')) ∧
  (∀ handler isComposed, ∃ w',
     dupeMethod this methodName handler isComposed w = Returns () w' ∧
     ledger_entry w' this other = ledger_entry w this other ∧
     ∀ times, ∃ r lines,
       verify this other times w = Returns r (emit lines w) ∧
       verify this other times w' = Returns r (emit lines w')).
Proof.
  intros Hwf Hc Hne.
  destruct (target_exists w this c (key_of c methodName) Hwf Hc) as (p & e & Ht).
  split.
  - intros info. eexists. split; [by apply methodCall_run|].
    by apply (update_other_method _ _ _ _ e).
  - intros h comp. eexists. split; [by apply dupeMethod_run|].
    by apply (update_other_method _ _ _ _ e).
Qed.

Lemma other_methods_undisturbed_witness :
  (∀ callingInfo, ∃ w',
     methodCall example_first "baz" callingInfo World_example = Returns () w' ∧
     ledger_entry w' example_first "bar"
       = ledger_entry World_example example_first "bar" ∧
     ∀ times, ∃ r lines,
       verify example_first "bar" times World_example
         = Returns r (emit lines World_example) ∧
       verify example_first "bar" times w' = Returns r (emit lines w')) ∧
  (∀ handler isComposed, ∃ w',
     dupeMethod example_first "baz" handler isComposed World_example
       = Returns () w' ∧
     ledger_entry w' example_first "bar"
       = ledger_entry World_example example_first "bar" ∧
     ∀ times, ∃ r lines,
       verify example_first "bar" times World_example
         = Returns r (emit lines World_example) ∧
       verify example_first "bar" times w' = Returns r (emit lines w')).
Proof.
  eapply (other_methods_undisturbed example_first _ "baz" "bar" World_example).
  - exact wf_example.
  - vm_compute. reflexivity.
  - discriminate.
Defined.

(** ** [verify] *)

(** X9. [verify] changes no store: it leaves the world it found, with at
    most one line more, written to [std::cout], and none when it answers
    true; asked again, it gives the same answer and writes the same
    lines. *)
Theorem verify_reads_only this c methodName times w :
  wf w → classStore w !! this = Some c →
  ∃ r lines,
    verify this methodName times w = Returns r (emit lines w) ∧
    (r = true → lines = []) ∧
    (length lines ≤ 1)%nat ∧
    (∀ s line, (s, line) ∈ lines → s = cout) ∧
    verify this methodName times (emit lines w)
      = Returns r (emit lines (emit lines w)).
Proof.
  intros Hwf Hc. eexists _, _. split; [by apply verify_run|].
  split; [|split; [|split]].
  - intros Hr. unfold verify_lines.
    destruct (ledger_entry w this methodName) as [e|]; [by rewrite Hr|].
    simpl in Hr. apply bool_decide_eq_true_1 in Hr. subst times. done.
  - unfold verify_lines. destruct (ledger_entry w this methodName) as [e|].
    + destruct (verify_result _ _); simpl; lia.
    + destruct (bool_decide _); simpl; lia.
  - intros s line. unfold verify_lines.
    destruct (ledger_entry w this methodName) as [e|].
    + destruct (verify_result _ _); [by intros ?%elem_of_nil|].
      by intros [= -> _]%list_elem_of_singleton.
    + destruct (bool_decide _); [|by intros ?%elem_of_nil].
      by intros [= -> _]%list_elem_of_singleton.
  - by rewrite (verify_run this methodName times (emit _ w) c (wf_emit _ _ Hwf)).
Qed.

Lemma verify_reads_only_witness :
  ∃ r lines,
    verify example_first "bar" 3 World_example
      = Returns r (emit lines World_example) ∧
    (r = true → lines = []) ∧
    (length lines ≤ 1)%nat ∧
    (∀ s line, (s, line) ∈ lines → s = cout) ∧
    verify example_first "bar" 3 (emit lines World_example)
      = Returns r (emit lines (emit lines World_example)).
Proof.
  eapply (verify_reads_only example_first _ "bar" 3 World_example).
  - exact wf_example.
  - vm_compute. reflexivity.
Defined.

(** X10. Every negative [times] an [int] can hold asks for "at least one
    call", not only the default -1: [verify(method, times)] then returns
    true exactly when the recorded call count of the method is greater
    than 0. *)
Theorem verify_negative_times this c methodName times w :
  wf w → classStore w !! this = Some c → INT_MIN ≤ times ≤ -1 →
  ∃ w', verify this methodName times w =
        Returns (bool_decide (recorded_calls w this methodName > 0)) w'.
Proof.
  intros Hwf Hc [Hmin Hneg]. unfold INT_MIN in Hmin.
  eexists. rewrite (verify_run _ _ _ _ _ Hwf Hc).
  f_equal. unfold recorded_calls.
  destruct (ledger_entry w this methodName) as [e|]; simpl.
  - rewrite (bool_decide_eq_true_2 (times ≤ -1)) by done. simpl.
    destruct (bool_decide (_called e > 0)) eqn:E; [done|]. simpl.
    apply bool_decide_eq_false_2. apply bool_decide_eq_false_1 in E.
    unfold to_size_t, SIZE_WIDTH.
    replace times with (times + 2 ^ 64 + (-1) * 2 ^ 64) by lia.
    rewrite Z.mod_add by lia. rewrite Z.mod_small by lia. lia.
  - by rewrite bool_decide_eq_false_2 by lia.
Qed.

Lemma verify_negative_times_witness :
  ∃ w', verify example_first "bar" (-7) World_example =
        Returns (bool_decide (recorded_calls World_example example_first "bar" > 0)) w'.
Proof.
  eapply (verify_negative_times example_first _ "bar" (-7) World_example).
  - exact wf_example.
  - vm_compute. reflexivity.
  - vm_compute. split; discriminate.
Defined.

(** ** A duped method at work *)

(** X11. The body of a duped method calls [methodCall] and then
    [invokeDupedMethod].  After [dupeMethod(method, h)], one such call
    runs [h] once, on its argument, and is counted: [verify(method, 1)]
    and [verify(method)] return true and write nothing. *)
Theorem duped_method_call_is_counted_and_stubbed this c methodName h callingInfo arg w :
  wf w → classStore w !! this = Some c →
  ∃ w1 w2,
    dupeMethod this methodName (callable h) false w = Returns () w1 ∧
    methodCall this methodName callingInfo w1 = Returns () w2 ∧
    ∀ fuel,
      let w3 := set_invoked (invoked w2 ++ [(h, arg)]) w2 in
      invokeDupedMethod fuel this methodName arg w2 = Returns () w3 ∧
      verify this methodName 1 w3 = Returns true w3 ∧
      verify this methodName (-1) w3 = Returns true w3.
Proof.
  intros Hwf Hc.
  destruct (target_exists w this c (key_of c methodName) Hwf Hc) as (p & e & Ht).
  set (e1 := duped methodName (callable h) false p e).
  set (w1 := ledger_update this c (key_of c methodName) p e1 w).
  set (c1 := with_verifiers (<[key_of c methodName := p]> (_verifiers c)) c).
  assert (classStore w1 !! this = Some c1) as Hc1
    by (unfold w1, ledger_update; simpl; apply lookup_insert_eq).
  assert (wf w1) as Hwf1 by by apply (wf_ledger_update _ _ _ _ e).
  assert (target w1 c1 (key_of c1 methodName) p e1) as Ht1.
  { apply target_found; [apply lookup_insert_eq|].
    unfold w1, ledger_update. simpl. apply lookup_insert_eq. }
  set (e2 := recorded methodName callingInfo e1).
  set (w2 := ledger_update this c1 (key_of c1 methodName) p e2 w1).
  set (c2 := with_verifiers (<[key_of c1 methodName := p]> (_verifiers c1)) c1).
  assert (classStore w2 !! this = Some c2) as Hc2
    by (unfold w2, ledger_update; simpl; apply lookup_insert_eq).
  assert (wf w2) as Hwf2 by by apply (wf_ledger_update _ _ _ _ e1).
  assert (ledger_entry w2 this methodName = Some e2) as He2
    by by apply ledger_entry_update_same.
  exists w1, w2. split; [by apply dupeMethod_run|].
  split; [by apply methodCall_run|]. intros fuel w3.
  split; [|split].
  - rewrite (invokeDupedMethod_run fuel this c2 methodName arg p e2); try done.
    + by destruct fuel.
    + apply lookup_insert_eq.
    + unfold w2, ledger_update. simpl. apply lookup_insert_eq.
  - rewrite (verify_run this methodName 1 w3 c2); [|by apply wf_set_invoked|done].
    unfold w3. rewrite ledger_entry_set_invoked, He2. simpl.
    by rewrite emit_nil.
  - rewrite (verify_run this methodName (-1) w3 c2); [|by apply wf_set_invoked|done].
    unfold w3. rewrite ledger_entry_set_invoked, He2. simpl.
    by rewrite emit_nil.
Qed.

Lemma duped_method_call_is_counted_and_stubbed_witness :
  ∃ w1 w2,
    dupeMethod example_first "bar" (callable 1) false World_example
      = Returns () w1 ∧
    methodCall example_first "bar" (payload 9) w1 = Returns () w2 ∧
    ∀ fuel,
      let w3 := set_invoked (invoked w2 ++ [(1%nat, 4096)]) w2 in
      invokeDupedMethod fuel example_first "bar" 4096 w2 = Returns () w3 ∧
      verify example_first "bar" 1 w3 = Returns true w3 ∧
      verify example_first "bar" (-1) w3 = Returns true w3.
Proof.
  eapply (duped_method_call_is_counted_and_stubbed example_first _ "bar" 1%nat
            (payload 9) 4096 World_example).
  - exact wf_example.
  - vm_compute. reflexivity.
Defined.

(** ** The registry *)

(** X12. [getMock] on one pointer always gives the same verifier: the
    first call returns it (making it if the pointer is new), and every
    later call returns it again and changes nothing, whatever class name
    the later call is made with. *)
Theorem getMock_idempotent className this v mockPtr w :
  verifierStore w !! this = Some v →
  ∃ p w',
    getMock className this mockPtr w = Returns p w' ∧
    (is_Some (_mockedClass v !! mockPtr) → w' = w) ∧
    ∀ className', getMock className' this mockPtr w' = Returns p w'.
Proof.
  intros Hv. destruct (_mockedClass v !! mockPtr) as [p|] eqn:Hp.
  - exists p, w. split; [by eapply getMock_run_known|]. split; [done|].
    intros className'. by eapply getMock_run_known.
  - eexists _, _. split; [by apply getMock_run_new|].
    split; [by intros [? ?]|]. intros className'.
    eapply getMock_run_known.
    + unfold register_mock. simpl. apply lookup_insert_eq.
    + simpl. apply lookup_insert_eq.
Qed.

Lemma getMock_idempotent_witness :
  ∃ p w',
    getMock "Foo" example_registry 300 World_example = Returns p w' ∧
    (is_Some (_mockedClass example_registry_value !! 300) → w' = World_example) ∧
    ∀ className', getMock className' example_registry 300 w' = Returns p w'.
Proof.
  apply (getMock_idempotent "Foo" example_registry
           example_registry_value
           300 World_example).
  vm_compute. reflexivity.
Defined.

(** X13. [getMock] registers its pointer and no other: afterwards
    [isMockRegistered] returns true for the pointer, and for every other
    pointer what it returned before. *)
Theorem getMock_registers className this v mockPtr w :
  verifierStore w !! this = Some v →
  ∃ p w',
    getMock className this mockPtr w = Returns p w' ∧
    isMockRegistered this mockPtr w' = Returns true w' ∧
    ∀ other, other ≠ mockPtr →
      isMockRegistered this other w = Returns (map_find (_mockedClass v) other) w ∧
      isMockRegistered this other w' = Returns (map_find (_mockedClass v) other) w'.
Proof.
  intros Hv. destruct (_mockedClass v !! mockPtr) as [p|] eqn:Hp.
  - exists p, w. split; [by eapply getMock_run_known|].
    rewrite (isMockRegistered_run _ _ mockPtr _ Hv), (map_find_Some _ _ _ Hp).
    split; [done|]. intros other _.
    by rewrite (isMockRegistered_run _ _ other _ Hv).
  - eexists _, _. split; [by apply getMock_run_new|].
    set (w' := register_mock _ _ _ _ _ _).
    assert (verifierStore w' !! this =
            Some (with_mockedClass
                    (<[mockPtr := fresh (dom (classStore w))]> (_mockedClass v)) v))
      as Hv' by (unfold w', register_mock; simpl; apply lookup_insert_eq).
    rewrite (isMockRegistered_run _ _ mockPtr _ Hv'). simpl.
    rewrite (map_find_Some _ _ _ (lookup_insert_eq _ _ _)).
    split; [done|]. intros other Hne.
    rewrite (isMockRegistered_run _ _ other _ Hv).
    rewrite (isMockRegistered_run _ _ other _ Hv'). simpl.
    split; [done|]. unfold map_find. by rewrite lookup_insert_ne.
Qed.

Lemma getMock_registers_witness :
  ∃ p w',
    getMock "Foo" example_registry 300 World_example = Returns p w' ∧
    isMockRegistered example_registry 300 w' = Returns true w' ∧
    ∀ other, other ≠ 300 →
      isMockRegistered example_registry other World_example
        = Returns (map_find (_mockedClass example_registry_value) other) World_example ∧
      isMockRegistered example_registry other w'
        = Returns (map_find (_mockedClass example_registry_value) other) w'.
Proof.
  apply (getMock_registers "Foo" example_registry
           example_registry_value
           300 World_example).
  vm_compute. reflexivity.
Defined.

Lemma ledger_entry_same_stores w w' y m :
  classStore w' !! y = classStore w !! y → methodStore w' = methodStore w →
  ledger_entry w' y m = ledger_entry w y m.
Proof. intros Hc Hm. unfold ledger_entry. by rewrite Hc, Hm. Qed.

(** X14. For a pointer not registered yet, [getMock] makes a verifier
    that did not exist, named after the class, with an empty ledger, and
    leaves every verifier that existed, and its ledger, as it was. *)
Theorem getMock_makes_empty_verifier className this v mockPtr w :
  verifierStore w !! this = Some v → _mockedClass v !! mockPtr = None →
  ∃ p w',
    getMock className this mockPtr w = Returns p w' ∧
    classStore w !! p = None ∧
    classStore w' !! p = Some (MockClassVerifier_new className) ∧
    (∀ m, ledger_entry w' p m = None) ∧
    ∀ y, is_Some (classStore w !! y) →
      classStore w' !! y = classStore w !! y ∧
      ∀ m, ledger_entry w' y m = ledger_entry w y m.
Proof.
  intros Hv Hp. eexists _, _. split; [by apply getMock_run_new|].
  pose proof (fresh_class_None w) as Hf.
  set (p := fresh (dom (classStore w))) in *.
  assert (classStore (register_mock className this v mockPtr p w) !! p
          = Some (MockClassVerifier_new className)) as Hnew
    by (unfold register_mock; simpl; apply lookup_insert_eq).
  split; [done|]. split; [done|]. split.
  - intros m. unfold ledger_entry. by rewrite Hnew.
  - intros y [C HC].
    assert (classStore (register_mock className this v mockPtr p w) !! y
            = classStore w !! y) as Hy.
    { unfold register_mock. simpl. apply lookup_insert_ne. congruence. }
    split; [done|]. intros m. by apply ledger_entry_same_stores.
Qed.

Lemma getMock_makes_empty_verifier_witness :
  ∃ p w',
    getMock "Foo" example_registry 300 World_example = Returns p w' ∧
    classStore World_example !! p = None ∧
    classStore w' !! p = Some (MockClassVerifier_new "Foo") ∧
    (∀ m, ledger_entry w' p m = None) ∧
    ∀ y, is_Some (classStore World_example !! y) →
      classStore w' !! y = classStore World_example !! y ∧
      ∀ m, ledger_entry w' y m = ledger_entry World_example y m.
Proof.
  eapply (getMock_makes_empty_verifier "Foo" example_registry _ 300
            World_example).
  - vm_compute. reflexivity.
  - vm_compute. reflexivity.
Defined.

(** X15. [getDefaultMock] on one class name always gives the same
    verifier, a later call changing nothing; a verifier it makes is named
    after the class name, has an empty ledger and did not exist before;
    and it registers no pointer: [isMockRegistered] answers as before. *)
Theorem getDefaultMock_idempotent this v className w :
  verifierStore w !! this = Some v →
  ∃ p w',
    getDefaultMock this className w = Returns p w' ∧
    getDefaultMock this className w' = Returns p w' ∧
    (_defaultMockedClass v !! className = None →
       classStore w !! p = None ∧
       classStore w' !! p = Some (MockClassVerifier_new className)) ∧
    ∀ mockPtr,
      isMockRegistered this mockPtr w' =
      Returns (map_find (_mockedClass v) mockPtr) w'.
Proof.
  intros Hv. destruct (_defaultMockedClass v !! className) as [p|] eqn:Hp.
  - exists p, w. split; [by eapply getDefaultMock_run_known|].
    split; [by eapply getDefaultMock_run_known|]. split; [done|].
    intros mockPtr. by apply isMockRegistered_run.
  - eexists _, _. split; [by apply getDefaultMock_run_new|].
    set (w' := register_default _ _ _ _ _).
    assert (verifierStore w' !! this =
            Some (with_defaultMockedClass
                    (<[className := fresh (dom (classStore w))]>
                       (_defaultMockedClass v)) v))
      as Hv' by (unfold w', register_default; simpl; apply lookup_insert_eq).
    split; [|split].
    + eapply getDefaultMock_run_known; [exact Hv'|]. simpl.
      apply lookup_insert_eq.
    + intros _. split; [apply fresh_class_None|].
      unfold w', register_default. simpl. apply lookup_insert_eq.
    + intros mockPtr. by rewrite (isMockRegistered_run _ _ mockPtr _ Hv').
Qed.

Lemma getDefaultMock_idempotent_witness :
  ∃ p w',
    getDefaultMock example_registry "Bar" World_example = Returns p w' ∧
    getDefaultMock example_registry "Bar" w' = Returns p w' ∧
    (_defaultMockedClass example_registry_value !! "Bar" = None →
       classStore World_example !! p = None ∧
       classStore w' !! p = Some (MockClassVerifier_new "Bar")) ∧
    ∀ mockPtr,
      isMockRegistered example_registry mockPtr w' =
      Returns (map_find (_mockedClass example_registry_value) mockPtr) w'.
Proof.
  apply (getDefaultMock_idempotent example_registry
           example_registry_value
           "Bar" World_example).
  vm_compute. reflexivity.
Defined.

(** X16. [instance] is a singleton: it always returns, a second call
    returns the same registry and changes nothing, and a call made when a
    registry exists changes nothing either. *)
Theorem instance_is_singleton w :
  ∃ v w1,
    instance w = Returns v w1 ∧
    instance w1 = Returns v w1 ∧
    inst w1 = Some v ∧
    (is_Some (inst w) → w1 = w).
Proof.
  destruct (inst w) as [v|] eqn:Hi.
  - exists v, w. by rewrite (instance_run_some _ _ Hi).
  - eexists _, _. split; [by apply instance_run_none|].
    split; [by apply instance_run_some|]. split; [done|]. by intros [? ?].
Qed.



(** ** Invariants of the worlds a program reaches *)

Lemma keyed_same_stores w w' :
  keyed w → methodStore w' = methodStore w → classStore w' = classStore w →
  keyed w'.
Proof. intros H Em Ec. unfold keyed. rewrite Em, Ec. apply H. Qed.

Lemma keyed_ledger_update this c methodName p e e' w :
  wf w → keyed w → classStore w !! this = Some c →
  target w c (key_of c methodName) p e → _methodName e' = methodName →
  keyed (ledger_update this c (key_of c methodName) p e' w).
Proof.
  intros Hwf Hkeyed Hc Ht Hname y C k q x HC Hk Hq.
  assert (key_of C = key_of (if decide (y = this) then c else C) ∧
          classStore w !! y = Some (if decide (y = this) then c else C))
    as [Hkey Hold].
  { revert HC. unfold ledger_update. simpl.
    destruct (decide (y = this)) as [->|Hy].
    - rewrite lookup_insert_eq. by intros [= <-].
    - by rewrite lookup_insert_ne by done. }
  destruct (ledger_update_owner _ _ _ _ _ _ _ _ _ _ Hc HC Hk)
    as [(-> & -> & ->) | (Hne & C0 & HC0 & Hk0)].
  - revert Hq. unfold ledger_update. simpl. rewrite lookup_insert_eq.
    intros [= <-]. rewrite Hname, Hkey. by rewrite decide_True.
  - assert (q ≠ p) as Hqp
      by by eapply (target_elsewhere w this c _ p e y C0 k q).
    revert Hq. unfold ledger_update. simpl. rewrite lookup_insert_ne by done.
    intros Hq. rewrite Hkey. rewrite Hold in HC0. injection HC0 as <-.
    by apply (Hkeyed y _ k q x).
Qed.

Lemma keyed_register w w' className :
  keyed w → methodStore w' = methodStore w →
  classStore w' =
    <[fresh (dom (classStore w)) := MockClassVerifier_new className]> (classStore w) →
  keyed w'.
Proof.
  intros Hkeyed Em Ec y C k q x. rewrite Em, Ec. intros HC Hk Hq.
  destruct (decide (y = fresh (dom (classStore w)))) as [->|Hne].
  - rewrite lookup_insert_eq in HC. by injection HC as <-.
  - rewrite lookup_insert_ne in HC by done. by apply (Hkeyed y C k q x).
Qed.

Lemma methodCall_keyed this methodName callingInfo w r w' :
  wf w → keyed w → methodCall this methodName callingInfo w = Returns r w' →
  keyed w'.
Proof.
  intros Hwf Hkeyed. destruct (classStore w !! this) as [c|] eqn:Hc.
  - destruct (target_exists w this c (key_of c methodName) Hwf Hc) as (p & m & Ht).
    rewrite (methodCall_run _ _ _ _ _ _ _ Hc Ht). intros [= _ <-].
    by apply (keyed_ledger_update _ _ _ _ m).
  - unfold methodCall, deref_class. rewrite bind_run, Hc. done.
Qed.

Lemma dupeMethod_keyed this methodName handler isComposed w r w' :
  wf w → keyed w →
  dupeMethod this methodName handler isComposed w = Returns r w' → keyed w'.
Proof.
  intros Hwf Hkeyed. destruct (classStore w !! this) as [c|] eqn:Hc.
  - destruct (target_exists w this c (key_of c methodName) Hwf Hc) as (p & m & Ht).
    rewrite (dupeMethod_run _ _ _ _ _ _ _ _ Hc Ht). intros [= _ <-].
    by apply (keyed_ledger_update _ _ _ _ m).
  - unfold dupeMethod, deref_class.
    rewrite make_shared_method_bind_run, bind_run. simpl classStore.
    by rewrite Hc.
Qed.

Lemma instance_keyed w v w' : keyed w → instance w = Returns v w' → keyed w'.
Proof.
  intros Hkeyed. destruct (inst w) as [v0|] eqn:Hi.
  - rewrite (instance_run_some _ _ Hi). by intros [= _ <-].
  - rewrite (instance_run_none _ Hi). intros [= _ <-].
    by apply (keyed_same_stores w).
Qed.

Lemma getMock_keyed className this mockPtr w p w' :
  keyed w → getMock className this mockPtr w = Returns p w' → keyed w'.
Proof.
  intros Hkeyed. destruct (verifierStore w !! this) as [v|] eqn:Hv.
  - destruct (_mockedClass v !! mockPtr) as [q|] eqn:Hq.
    + rewrite (getMock_run_known _ _ _ _ _ _ Hv Hq). by intros [= _ <-].
    + rewrite (getMock_run_new _ _ _ _ _ Hv Hq). intros [= _ <-].
      by apply (keyed_register w _ className).
  - unfold getMock, isMockRegistered, deref_verifier.
    rewrite !bind_run, Hv. done.
Qed.

Lemma getDefaultMock_keyed this className w p w' :
  keyed w → getDefaultMock this className w = Returns p w' → keyed w'.
Proof.
  intros Hkeyed. destruct (verifierStore w !! this) as [v|] eqn:Hv.
  - destruct (_defaultMockedClass v !! className) as [q|] eqn:Hq.
    + rewrite (getDefaultMock_run_known _ _ _ _ _ Hv Hq). by intros [= _ <-].
    + rewrite (getDefaultMock_run_new _ _ _ _ Hv Hq). intros [= _ <-].
      by apply (keyed_register w _ className).
  - unfold getDefaultMock, deref_verifier. rewrite !bind_run, Hv. done.
Qed.

Lemma api_run_keyed c w r w' :
  wf w → keyed w → api_run c w = Returns r w' → keyed w'.
Proof.
  intros Hwf Hkeyed. destruct c; simpl; try rewrite bind_run.
  - destruct (instance w) eqn:E; try done. intros [= _ <-].
    by eapply instance_keyed.
  - rewrite cleanUp_run. intros [= _ <-].
    destruct (inst w); [by apply (keyed_same_stores w)|done].
  - destruct (getMock _ _ _ w) eqn:E; try done. intros [= _ <-].
    by eapply getMock_keyed.
  - destruct (getDefaultMock _ _ w) eqn:E; try done. intros [= _ <-].
    by eapply getDefaultMock_keyed.
  - unfold get. rewrite bind_run.
    destruct (instance w) as [v w1| | |] eqn:E; try done.
    destruct (getMock _ _ _ w1) eqn:E1; try done. intros [= _ <-].
    eapply getMock_keyed; [|exact E1]. by eapply instance_keyed.
  - unfold getDefault. rewrite bind_run.
    destruct (instance w) as [v w1| | |] eqn:E; try done.
    destruct (getDefaultMock _ _ w1) eqn:E1; try done. intros [= _ <-].
    eapply getDefaultMock_keyed; [|exact E1]. by eapply instance_keyed.
  - by apply methodCall_keyed.
  - by apply dupeMethod_keyed.
  - destruct (classStore w !! this) as [c|] eqn:Hc.
    + rewrite (verify_run _ _ _ _ _ Hwf Hc). simpl. intros [= _ <-].
      by apply (keyed_same_stores w).
    + unfold verify, deref_class. rewrite bind_run, Hc. done.
  - intros E. apply invokeDupedMethod_stores in E as [l ->].
    by apply (keyed_same_stores w).
Qed.

Lemma api_run_all_keyed cs w r w' :
  wf w → keyed w → api_run_all cs w = Returns r w' → keyed w'.
Proof.
  revert w. induction cs as [|c cs IH]; intros w Hwf Hkeyed; simpl.
  - by intros [= _ <-].
  - rewrite bind_run. destruct (api_run c w) as [[] w1| | |] eqn:E; try done.
    apply IH; [by eapply api_run_wf|by eapply api_run_keyed].
Qed.

(** X18. In every world a program reaches from the start, by any calls of
    the functions of the header, each ledger key is the class name of its
    verifier followed by the method name kept in the entry: the entry of
    a method holds the name of that method, and every key starts with the
    class name. *)
Theorem reachable_keys_are_class_and_method cs w this c methodName e :
  api_run_all cs World_initial = Returns () w →
  classStore w !! this = Some c →
  (ledger_entry w this methodName = Some e → _methodName e = methodName) ∧
  (∀ k p, _verifiers c !! k = Some p → ∃ m, k = _className c +:+ m).
Proof.
  intros Hrun Hc. pose proof (reachable_wf _ _ Hrun) as Hwf.
  assert (keyed w) as Hkeyed.
  { apply (api_run_all_keyed cs World_initial () w wf_initial); [|done].
    intros y C k q x. simpl. by rewrite lookup_empty. }
  split.
  - intros He. destruct (ledger_entry_Some _ _ _ _ _ Hc He) as (p & Hk & Hp).
    symmetry. apply (key_of_inj c). by apply (Hkeyed this c _ p e).
  - intros k p Hk. destruct (wf_entries w Hwf _ _ _ _ Hc Hk) as [x Hx].
    exists (_methodName x). by apply (Hkeyed this c k p x).
Qed.

Lemma reachable_keys_are_class_and_method_witness :
  (ledger_entry World_example example_first "bar"
     = Some {| _methodName := "bar"; _called := 1; _handler := empty_function;
               _calledData := [payload 7] |} →
   _methodName {| _methodName := "bar"; _called := 1; _handler := empty_function;
                  _calledData := [payload 7] |} = "bar") ∧
  (∀ k p, _verifiers {| _className := "Foo";
                         _verifiers := {[ "Foobar" := 1%positive ]} |} !! k = Some p →
     ∃ m, k = _className {| _className := "Foo";
                            _verifiers := {[ "Foobar" := 1%positive ]} |} +:+ m).
Proof.
  apply (reachable_keys_are_class_and_method example_calls World_example
           example_first).
  - exact example_calls_return.
  - vm_compute. reflexivity.
Defined.

(** X19. In every world a program reaches from the start, the count of
    each ledger entry is the number of its recorded payloads. *)
Theorem reachable_count_is_number_of_payloads cs w this methodName :
  api_run_all cs World_initial = Returns () w →
  recorded_calls w this methodName
  = vector_size (recorded_payloads w this methodName).
Proof.
  intros Hrun. pose proof (reachable_wf _ _ Hrun) as Hwf.
  unfold recorded_calls, recorded_payloads.
  destruct (ledger_entry w this methodName) as [e|] eqn:He; simpl; [|done].
  unfold ledger_entry in He.
  destruct (classStore w !! this) as [c|]; [|done]. simpl in He.
  destruct (_verifiers c !! key_of c methodName) as [p|]; [|done].
  by apply (wf_called w Hwf p).
Qed.

Lemma reachable_count_is_number_of_payloads_witness :
  recorded_calls World_example example_first "bar"
  = vector_size (recorded_payloads World_example example_first "bar").
Proof.
  apply (reachable_count_is_number_of_payloads example_calls).
  exact example_calls_return.
Defined.

(** X20. In every world a program reaches from the start, the registry
    shares no verifier: two pointers, or two class names, with the same
    verifier are the same, no verifier belongs to a pointer and to a class
    name at once, and no ledger entry belongs to two verifiers or to two
    keys of one verifier. *)
Theorem reachable_registry_shares_nothing cs w v V :
  api_run_all cs World_initial = Returns () w →
  verifierStore w !! v = Some V →
  (∀ a a' c, _mockedClass V !! a = Some c → _mockedClass V !! a' = Some c →
     a = a') ∧
  (∀ n n' c, _defaultMockedClass V !! n = Some c →
     _defaultMockedClass V !! n' = Some c → n = n') ∧
  (∀ a n c c', _mockedClass V !! a = Some c →
     _defaultMockedClass V !! n = Some c' → c ≠ c') ∧
  (∀ c C k c' C' k' p,
     classStore w !! c = Some C → _verifiers C !! k = Some p →
     classStore w !! c' = Some C' → _verifiers C' !! k' = Some p →
     c = c' ∧ k = k').
Proof.
  intros Hrun HV. pose proof (reachable_wf _ _ Hrun) as Hwf.
  split; [|split; [|split]].
  - intros a a' c. by apply (wf_mocked_inj w Hwf v).
  - intros n n' c. by apply (wf_default_inj w Hwf v).
  - intros a n c c'. by apply (wf_mocked_default w Hwf v).
  - apply (wf_owner w Hwf).
Qed.

Lemma reachable_registry_shares_nothing_witness :
  (∀ a a' c, _mockedClass example_registry_value !! a = Some c →
     _mockedClass example_registry_value !! a' = Some c → a = a') ∧
  (∀ n n' c, _defaultMockedClass example_registry_value !! n = Some c →
     _defaultMockedClass example_registry_value !! n' = Some c → n = n') ∧
  (∀ a n c c', _mockedClass example_registry_value !! a = Some c →
     _defaultMockedClass example_registry_value !! n = Some c' → c ≠ c') ∧
  (∀ c C k c' C' k' p,
     classStore World_example !! c = Some C → _verifiers C !! k = Some p →
     classStore World_example !! c' = Some C' → _verifiers C' !! k' = Some p →
     c = c' ∧ k = k').
Proof.
  apply (reachable_registry_shares_nothing example_calls World_example
           example_registry example_registry_value).
  - exact example_calls_return.
  - vm_compute. reflexivity.
Defined.
